(** * APFS B-tree structures and object-header strings

    A shallow embedding of [btree.h] (the on-disk B-tree node structures and
    their flag constants) and of [apfs/string/object.h] (the functions that
    render an object header as text), together with the properties the
    design document states about them. *)

From Stdlib Require Import ZArith Lia List String Ascii Bool.
From stdpp Require Import base list.
Import ListNotations.

(** ** C data layout

    The structures of [btree.h] are built from fixed-width unsigned integers
    only, so their layout is the natural one: every member sits at the next
    multiple of its alignment, and a structure is as aligned as its most
    aligned member. *)

Module CLayout.

#[warnings="-register-all"] Inductive ctype : Type :=
  | CUInt (bytes : nat)                       (* uint8_t .. uint64_t *)
  | CArray (elt : ctype) (n : nat)            (* T name[n] *)
  | CFlex (elt : ctype)                       (* T name[]  *)
  | CStruct (members : list (string * ctype)).

Definition uint8_t : ctype := CUInt 1.
Definition uint16_t : ctype := CUInt 2.
Definition uint32_t : ctype := CUInt 4.
Definition uint64_t : ctype := CUInt 8.

Definition align_up (off al : nat) : nat := ((off + al - 1) / al) * al.

Fixpoint alignof (t : ctype) : nat :=
  match t with
  | CUInt n => n
  | CArray e _ => alignof e
  | CFlex e => alignof e
  | CStruct ms =>
      (fix go (ms : list (string * ctype)) : nat :=
         match ms with
         | [] => 1
         | (_, m) :: ms' => Nat.max (alignof m) (go ms')
         end) ms
  end.

Fixpoint sizeof (t : ctype) : nat :=
  match t with
  | CUInt n => n
  | CArray e n => n * sizeof e
  | CFlex _ => 0
  | CStruct ms =>
      align_up
        ((fix go (ms : list (string * ctype)) (off : nat) : nat :=
            match ms with
            | [] => off
            | (_, m) :: ms' => go ms' (align_up off (alignof m) + sizeof m)
            end) ms 0)
        (alignof t)
  end.

(** One row per member: name, offset from the start of the structure, size. *)
Record member_at : Type := MemberAt {
  m_name : string;
  m_type : ctype;
  m_off : nat;
  m_size : nat
}.

Fixpoint place (ms : list (string * ctype)) (off : nat) : list member_at :=
  match ms with
  | [] => []
  | (x, m) :: ms' =>
      let o := align_up off (alignof m) in
      MemberAt x m o (sizeof m) :: place ms' (o + sizeof m)
  end.

Definition members_of (t : ctype) : list (string * ctype) :=
  match t with
  | CStruct ms => ms
  | _ => []
  end.

Definition layout (t : ctype) : list member_at := place (members_of t) 0.

Definition offsetof (t : ctype) (x : string) : option nat :=
  m_off <$> List.find (fun r => String.eqb (m_name r) x) (layout t).

(** The layout as name, offset, size. *)
Definition table (t : ctype) : list (string * nat * nat) :=
  (fun r => (m_name r, m_off r, m_size r)) <$> layout t.

(** Bytes lost to padding between and after the members. *)
Definition padding (t : ctype) : nat :=
  sizeof t - list_sum (map m_size (layout t)).

End CLayout.

(** ** [btree.h]: structures *)

Module Btree.
Import CLayout.

(** Modelled from the spec: [obj_phys_t] is declared in [object.h], which is
    not part of the sources at hand.  The external-interface table gives the
    object header as checksum(8) + oid(8) + xid(8) + type(4) + subtype(4);
    the member names are the ones [apfs/string/object.h] dereferences. *)
Definition obj_phys_t : ctype :=
  CStruct [ ("o_cksum", CArray uint8_t 8);
            ("o_oid", uint64_t);
            ("o_xid", uint64_t);
            ("o_type", uint32_t);
            ("o_subtype", uint32_t) ]%string.

Definition nloc_t : ctype :=
  CStruct [ ("off", uint16_t); ("len", uint16_t) ]%string.

Definition btree_node_phys_t : ctype :=
  CStruct [ ("btn_o", obj_phys_t);
            ("btn_flags", uint16_t);
            ("btn_level", uint16_t);
            ("btn_nkeys", uint32_t);
            ("btn_table_space", nloc_t);
            ("btn_free_space", nloc_t);
            ("btn_key_free_list", nloc_t);
            ("btn_val_free_list", nloc_t);
            ("btn_data", CFlex uint64_t) ]%string.

Definition btree_info_fixed_t : ctype :=
  CStruct [ ("bt_flags", uint32_t);
            ("bt_node_size", uint32_t);
            ("bt_key_size", uint32_t);
            ("bt_val_size", uint32_t) ]%string.

Definition btree_info_t : ctype :=
  CStruct [ ("bt_fixed", btree_info_fixed_t);
            ("bt_longest_key", uint32_t);
            ("bt_longest_val", uint32_t);
            ("bt_key_count", uint64_t);
            ("bt_node_count", uint64_t) ]%string.

Definition kvloc_t : ctype :=
  CStruct [ ("k", nloc_t); ("v", nloc_t) ]%string.

Definition kvoff_t : ctype :=
  CStruct [ ("k", uint16_t); ("v", uint16_t) ]%string.

(** ** [btree.h]: constants *)

Open Scope Z_scope.

(** B-Tree Flags *)
Definition BTREE_UNIT64_KEYS : Z := 0x00000001.
Definition BTREE_SEQUENTIAL_INSERT : Z := 0x00000002.
Definition BTREE_ALLOW_GHOSTS : Z := 0x00000004.
Definition BTREE_EPHEMERAL : Z := 0x00000008.
Definition BTREE_PHYSICAL : Z := 0x00000010.
Definition BTREE_NONPERSISTENT : Z := 0x00000020.
Definition BTREE_KV_NONALIGNED : Z := 0x00000040.

(** B-Tree Table of Contents Constants *)
Definition BTREE_TOC_ENTRY_INCREMENT : Z := 8.
Definition BTREE_TOC_ENTRY_MAX_UNUSED : Z := 2 * BTREE_TOC_ENTRY_INCREMENT.

(** B-Tree Node Flags *)
Definition BTNODE_ROOT : Z := 0x0001.
Definition BTNODE_LEAF : Z := 0x0002.
Definition BTNODE_FIXED_KV_SIZE : Z := 0x0004.
Definition BTNODE_CHECK_KOFF_INVAL : Z := 0x8000.

(** B-Tree Node Constants *)
Definition BTREE_NODE_SIZE_DEFAULT : Z := 4096.
Definition BTREE_NODE_MIN_ENTRY_COUNT : Z := 4.

(** The two groups of flag macros, in the order the header defines them. *)
Definition btree_flags : list Z :=
  [ BTREE_UNIT64_KEYS; BTREE_SEQUENTIAL_INSERT; BTREE_ALLOW_GHOSTS;
    BTREE_EPHEMERAL; BTREE_PHYSICAL; BTREE_NONPERSISTENT;
    BTREE_KV_NONALIGNED ].

Definition btnode_flags : list Z :=
  [ BTNODE_ROOT; BTNODE_LEAF; BTNODE_FIXED_KV_SIZE; BTNODE_CHECK_KOFF_INVAL ].

(** Every bit some macro of the group sets. *)
Definition flag_mask (fs : list Z) : Z := fold_right Z.lor 0 fs.

(** [(word & flag) != 0], the test C code applies to a flag word. *)
Definition has_flag (word flag : Z) : bool := negb (Z.land word flag =? 0).

(** Modelled from the spec: where a tree's node values point.  The reader of
    [bt_flags] is not part of the sources at hand; the design document names
    three spaces, the header defines a bit for two of them.  A word with both
    bits is given no space. *)
Inductive space : Type := Ephemeral | Physical | Virtual.

Definition btree_space (bt_flags : Z) : option space :=
  match has_flag bt_flags BTREE_EPHEMERAL, has_flag bt_flags BTREE_PHYSICAL with
  | true, false => Some Ephemeral
  | false, true => Some Physical
  | false, false => Some Virtual
  | true, true => None
  end.

(** Modelled from the spec: the encoding of a table-of-contents entry, "two
    encodings, selected by the fixed-key-value-size flag".  The decoder that
    makes the choice is not part of the sources at hand. *)
Definition toc_entry_t (btn_flags : Z) : ctype :=
  if has_flag btn_flags BTNODE_FIXED_KV_SIZE then kvoff_t else kvloc_t.

Close Scope Z_scope.

End Btree.

(** ** [apfs/string/object.h] *)

Module StringObject.

Open Scope Z_scope.

(** The fields of an object header the string functions read.  All are
    unsigned; [o_type] and [o_subtype] are 32 bits wide. *)
Record obj_phys_t : Type := {
  o_cksum : Z;
  o_oid : Z;
  o_xid : Z;
  o_type : Z;
  o_subtype : Z
}.

(** The macros of [../struct/object.h] the two functions below use.  That
    header is not part of the sources at hand, so their values are taken as
    parameters. *)
Class ObjectConstants : Type := {
  OBJ_STORAGETYPE_MASK : Z;
  OBJ_VIRTUAL : Z;
  OBJ_EPHEMERAL : Z;
  OBJ_PHYSICAL : Z;
  OBJ_NOHEADER : Z;
  OBJ_ENCRYPTED : Z;
  OBJ_NONPERSISTENT : Z
}.

(** The values the Apple File System Reference assigns to these macros; they
    serve to evaluate the functions on concrete headers. *)
Definition apfs_reference : ObjectConstants := {|
  OBJ_STORAGETYPE_MASK := 0xc0000000;
  OBJ_VIRTUAL := 0x00000000;
  OBJ_EPHEMERAL := 0x80000000;
  OBJ_PHYSICAL := 0x40000000;
  OBJ_NOHEADER := 0x20000000;
  OBJ_ENCRYPTED := 0x10000000;
  OBJ_NONPERSISTENT := 0x08000000
|}.

(** A [char*] result is [None] when the pointer is [NULL]. *)
Definition c_str : Type := option string.

(** What a call does: it returns, or it runs into undefined behaviour (a
    store through [NULL] or outside the allocated block). *)
Inductive outcome (A : Type) : Type :=
  | Returns (a : A)
  | Undefined.
Arguments Returns {A} a.
Arguments Undefined {A}.

Definition NUL : ascii := Ascii.zero.

Definition chars (s : string) : list ascii := list_ascii_of_string s.

(** [strlen] of a string literal. *)
Definition strlen (s : string) : nat := String.length s.

Section Functions.
Context `{ObjectConstants}.

Definition get_obj_storage_type_string (obj : obj_phys_t) : c_str :=
  let sw := Z.land (o_type obj) OBJ_STORAGETYPE_MASK in
  if sw =? OBJ_VIRTUAL then Some "Virtual"%string
  else if sw =? OBJ_EPHEMERAL then Some "Ephemeral"%string
  else if sw =? OBJ_PHYSICAL then Some "Physical"%string
  else Some "(invalid type)"%string.

Definition flag_constants : list Z :=
  [ OBJ_NOHEADER; OBJ_ENCRYPTED; OBJ_NONPERSISTENT ].

Definition flag_strings : list string :=
  [ "No-header";
    "Encrypted";
    "Non-persistent (should never appear on disk --- if it does, file a bug against the APFS implementation that created this object)"
  ]%string.

(** [for (i = 0; i < 3; i++) max_mem_required += strlen(flag_strings[i]) + 2]:
    [None] if the loop reads past the end of [flag_strings]. *)
Definition max_mem_required : option nat :=
  foldl (fun acc i => a ← acc; s ← flag_strings !! i; Some (a + (strlen s + 2))%nat)
        (Some 0%nat) (seq 0 3).

(** [buf[i] = c] in a block of [length buf] bytes. *)
Definition store (buf : list ascii) (i : nat) (c : ascii) : option (list ascii) :=
  if (i <? length buf)%nat then Some (<[i:=c]> buf) else None.

(** [memcpy(buf + dst, src, strlen(src))], byte after byte. *)
Fixpoint memcpy (buf : list ascii) (dst : nat) (src : list ascii) : option (list ascii) :=
  match src with
  | [] => Some buf
  | c :: src' => buf' ← store buf dst c; memcpy buf' (S dst) src'
  end.

(** [strlen] of the C string at the start of a block: [None] if the block
    holds no terminator. *)
Fixpoint c_strlen (buf : list ascii) : option nat :=
  match buf with
  | [] => None
  | c :: buf' => if Ascii.eqb c NUL then Some 0%nat else S <$> c_strlen buf'
  end.

(** The writing loop keeps the block and [cursor - result_string]. *)
Definition append_flag (obj : obj_phys_t) (st : list ascii * nat) (i : nat)
  : option (list ascii * nat) :=
  flag ← flag_constants !! i;
  if Z.land (o_type obj) flag =? 0 then Some st
  else
    st1 ← (if (st.2 =? 0)%nat then Some st
           else b1 ← store st.1 st.2 ","%char;
                b2 ← store b1 (S st.2) " "%char;
                Some (b2, S (S st.2)));
    str ← flag_strings !! i;
    b3 ← memcpy st1.1 st1.2 (chars str);
    Some (b3, (st1.2 + strlen str)%nat).

Definition append_none (st : list ascii * nat) : option (list ascii * nat) :=
  if (st.2 =? 0)%nat then
    b ← memcpy st.1 st.2 (chars "(none)");
    Some (b, (st.2 + strlen "(none)")%nat)
  else Some st.

Section Allocator.
(** [malloc n] is [None] for [NULL], else the fresh block with whatever bytes
    it holds; [realloc buf n] likewise. *)
Variable malloc : nat -> option (list ascii).
Variable realloc : list ascii -> nat -> option (list ascii).

(** The result is the block [realloc] hands back, [None] for [NULL].  When
    [malloc] fails the function prints a message and carries on, so the first
    store goes through [NULL]. *)
Definition get_obj_type_flags_string (obj : obj_phys_t) : outcome (option (list ascii)) :=
  match max_mem_required with
  | None => Undefined
  | Some size =>
      match malloc size with
      | None => Undefined
      | Some result_string =>
          match
            st ← foldl (fun acc i => st ← acc; append_flag obj st i)
                       (Some (result_string, 0%nat)) (seq 0 3);
            st ← append_none st;
            b ← store st.1 st.2 NUL;
            n ← c_strlen b;
            Some (b, n)
          with
          | None => Undefined
          | Some (b, n) => Returns (realloc b (n + 1)%nat)
          end
      end
  end.

End Allocator.

(** *** What the flags string is meant to be *)

(** The names of the flags set in [o_type], in the order of the table. *)
Definition set_flag_names (obj : obj_phys_t) : list string :=
  snd <$> filter (fun p => Z.land (o_type obj) p.1 <> 0)
                 (zip flag_constants flag_strings).

Fixpoint join (sep : string) (l : list string) : string :=
  match l with
  | [] => ""
  | [s] => s
  | s :: l' => s ++ sep ++ join sep l'
  end%string.

Definition type_flags_text (obj : obj_phys_t) : string :=
  match set_flag_names obj with
  | [] => "(none)"
  | l => join ", " l
  end%string.

(** *** The writing loop as text

    While the loop runs, the block is the text written so far followed by
    the untouched tail of the fresh block, and the cursor is the length of
    that text. *)
Definition written (w b : list ascii) : list ascii := w ++ drop (length w) b.

Definition separator (w : list ascii) : list ascii :=
  match w with
  | [] => []
  | _ => [","; " "]%char
  end.

Definition next_text (obj : obj_phys_t) (w : list ascii) (i : nat) : list ascii :=
  match flag_constants !! i, flag_strings !! i with
  | Some flag, Some str =>
      if Z.land (o_type obj) flag =? 0 then w else w ++ separator w ++ chars str
  | _, _ => w
  end.

Definition loop_text (obj : obj_phys_t) : list ascii :=
  foldl (next_text obj) [] (seq 0 3).

Definition final_text (obj : obj_phys_t) : list ascii :=
  match loop_text obj with
  | [] => chars "(none)"
  | w => w
  end.

End Functions.

(** An allocator that never fails: fresh blocks are filled with ['#'], and
    shrinking keeps the block in place. *)
Definition malloc_fill (n : nat) : option (list ascii) := Some (replicate n "#"%char).
Definition realloc_take (buf : list ascii) (n : nat) : option (list ascii) := Some (take n buf).

Definition hdr (ty : Z) : obj_phys_t :=
  {| o_cksum := 0; o_oid := 1; o_xid := 1; o_type := ty; o_subtype := 0 |}.

Close Scope Z_scope.

End StringObject.

(** ** The node decoder's checksum gate *)

Module NodeDecoder.
Import CLayout.

Open Scope Z_scope.

Definition byte_val (b : Byte.byte) : Z := Z.of_N (Byte.to_N b).

(** Little-endian value of a run of bytes. *)
Definition le_decode (bs : list Byte.byte) : Z :=
  fold_right (fun b acc => byte_val b + 256 * acc) 0 bs.

(** The [n] little-endian bytes of [z]. *)
Fixpoint le_encode (n : nat) (z : Z) : list Byte.byte :=
  match n with
  | O => []
  | S n' =>
      match Byte.of_N (Z.to_N (z mod 256)) with
      | Some b => b :: le_encode n' (z / 256)
      | None => []
      end
  end.

(** Modelled from the spec: the error taxonomy of the design document; no
    source file at hand declares it. *)
Inductive error : Type :=
  | ChecksumMismatch
  | MalformedNode
  | MalformedTree
  | NotFound
  | UnsupportedKeySpace.

Inductive result (A : Type) : Type :=
  | Ok (a : A)
  | Error (e : error).
Arguments Ok {A} a.
Arguments Error {A} e.

(** Width of the checksum field that opens every block: the first member of
    the object header. *)
Definition cksum_size : nat :=
  match layout Btree.obj_phys_t with
  | m :: _ => m_size m
  | [] => 0
  end.

Definition stored_cksum (raw_block : list Byte.byte) : Z :=
  le_decode (take cksum_size raw_block).

(** The bytes the checksum covers: the block without the checksum field. *)
Definition covered (raw_block : list Byte.byte) : list Byte.byte :=
  drop cksum_size raw_block.

Section Parse.
(** The checksum function and everything the decoder does once a block has
    passed the check are not in the sources at hand; both are parameters. *)
Variable cksum : list Byte.byte -> Z.
Variable Node : Type.
Variable decode : list Byte.byte -> result Node.

(** Modelled from the spec: step 1 of the node decoder, which no source file
    at hand implements.  "Recompute and compare the checksum; fail with
    ChecksumMismatch on disagreement -- this must happen before any other
    field is interpreted."  The remaining steps are [decode]. *)
Definition parse (raw_block : list Byte.byte) : result Node :=
  if stored_cksum raw_block =? cksum (covered raw_block)
  then decode raw_block
  else Error ChecksumMismatch.

End Parse.

(** *** A checksum and a field reader to run the decoder on *)

(** The block checksum of the Apple File System Reference: Fletcher-64 over
    the little-endian 32-bit words of the covered bytes. *)
Definition fletcher_mod : Z := 0xffffffff.

Fixpoint words (bs : list Byte.byte) : list Z :=
  match bs with
  | b0 :: b1 :: b2 :: b3 :: rest => le_decode [b0; b1; b2; b3] :: words rest
  | [] => []
  | _ => [le_decode bs]
  end.

Definition fletcher_step (sums : Z * Z) (w : Z) : Z * Z :=
  let sum1 := (sums.1 + w) mod fletcher_mod in
  (sum1, (sums.2 + sum1) mod fletcher_mod).

Definition fletcher_sums (ws : list Z) : Z * Z := foldl fletcher_step (0, 0) ws.

Definition fletcher64 (bs : list Byte.byte) : Z :=
  let sums := fletcher_sums (words bs) in
  let c1 := fletcher_mod - (sums.1 + sums.2) mod fletcher_mod in
  let c2 := fletcher_mod - (sums.1 + c1) mod fletcher_mod in
  Z.lor (Z.shiftl c2 32) c1.

(** The sum of a list of words, and the same sum taken byte by byte: the byte
    at position [k] of the covered bytes weighs [256 ^ (k mod 4)]. *)
Definition zsum (ws : list Z) : Z := fold_right Z.add 0 ws.

Fixpoint bsum (k : nat) (bs : list Byte.byte) : Z :=
  match bs with
  | [] => 0
  | b :: rest => byte_val b * 256 ^ Z.of_nat (k mod 4) + bsum (S k) rest
  end.

(** A location descriptor and the fixed part of a node, as values. *)
Record nloc : Type := { off : Z; len : Z }.

Record node_fields : Type := {
  btn_flags : Z;
  btn_level : Z;
  btn_nkeys : Z;
  btn_table_space : nloc;
  btn_free_space : nloc;
  btn_key_free_list : nloc;
  btn_val_free_list : nloc
}.

(** [n] bytes at [pos], or nothing when they are not all inside the block. *)
Definition read (raw_block : list Byte.byte) (pos n : nat) : option Z :=
  if (pos + n <=? length raw_block)%nat
  then Some (le_decode (take n (drop pos raw_block)))
  else None.

Definition read_member (t : ctype) (base : nat) (x : string) (raw_block : list Byte.byte)
  : option Z :=
  m ← List.find (fun r => String.eqb (m_name r) x) (layout t);
  read raw_block (base + m_off m) (m_size m).

Definition read_nloc (base : nat) (x : string) (raw_block : list Byte.byte) : option nloc :=
  pos ← offsetof Btree.btree_node_phys_t x;
  o ← read_member Btree.nloc_t (base + pos) "off" raw_block;
  l ← read_member Btree.nloc_t (base + pos) "len" raw_block;
  Some {| off := o; len := l |}.

Definition read_fields (raw_block : list Byte.byte) : option node_fields :=
  let rd x := read_member Btree.btree_node_phys_t 0 x raw_block in
  f ← rd "btn_flags"%string;
  lv ← rd "btn_level"%string;
  nk ← rd "btn_nkeys"%string;
  ts ← read_nloc 0 "btn_table_space" raw_block;
  fs ← read_nloc 0 "btn_free_space" raw_block;
  kf ← read_nloc 0 "btn_key_free_list" raw_block;
  vf ← read_nloc 0 "btn_val_free_list" raw_block;
  Some {| btn_flags := f; btn_level := lv; btn_nkeys := nk;
          btn_table_space := ts; btn_free_space := fs;
          btn_key_free_list := kf; btn_val_free_list := vf |}.

(** Modelled from the spec: the reading half of step 2 of the node decoder,
    with the one check the testable properties spell out: "a location
    descriptor whose offset+length exceeds the declared data-area bound
    yields MalformedNode".  The data area is what follows the fixed part of
    the node. *)
Definition within (data_len : Z) (l : nloc) : bool := off l + len l <=? data_len.

Definition decode_fields (raw_block : list Byte.byte) : result node_fields :=
  match read_fields raw_block with
  | None => Error MalformedNode
  | Some nf =>
      let data_len := Z.of_nat (length raw_block - sizeof Btree.btree_node_phys_t) in
      if within data_len (btn_table_space nf) && within data_len (btn_free_space nf)
         && within data_len (btn_key_free_list nf) && within data_len (btn_val_free_list nf)
      then Ok nf
      else Error MalformedNode
  end.

(** A block whose checksum field is filled in for the bytes that follow. *)
Definition seal (rest : list Byte.byte) : list Byte.byte :=
  le_encode cksum_size (fletcher64 rest) ++ rest.

(** A 64-byte leaf with no keys: the rest of the object header (oid 7, xid 1,
    type 3, subtype 0), flags [BTNODE_LEAF], level 0, zero keys, four empty
    descriptors and eight bytes of data. *)
Definition empty_leaf_rest : list Byte.byte :=
  le_encode 8 7 ++ le_encode 8 1 ++ le_encode 4 3 ++ le_encode 4 0
  ++ le_encode 2 Btree.BTNODE_LEAF ++ le_encode 2 0 ++ le_encode 4 0
  ++ le_encode 4 0 ++ le_encode 4 0 ++ le_encode 4 0 ++ le_encode 4 0
  ++ le_encode 8 0.

Definition empty_leaf : list Byte.byte := seal empty_leaf_rest.

Close Scope Z_scope.

End NodeDecoder.

(** ** [apfs/string/object.h]: type and subtype names *)

Module ObjectTypeNames.
Import StringObject.

Open Scope Z_scope.

(** The [OBJECT_TYPE_*] macros of [../struct/object.h], which is not part of
    the sources at hand: parameters, like the [OBJ_*] ones. *)
Class ObjectTypes : Type := {
  OBJECT_TYPE_MASK : Z;
  OBJECT_TYPE_NX_SUPERBLOCK : Z;
  OBJECT_TYPE_BTREE : Z;
  OBJECT_TYPE_BTREE_NODE : Z;
  OBJECT_TYPE_SPACEMAN : Z;
  OBJECT_TYPE_SPACEMAN_CAB : Z;
  OBJECT_TYPE_SPACEMAN_CIB : Z;
  OBJECT_TYPE_SPACEMAN_BITMAP : Z;
  OBJECT_TYPE_SPACEMAN_FREE_QUEUE : Z;
  OBJECT_TYPE_EXTENT_LIST_TREE : Z;
  OBJECT_TYPE_OMAP : Z;
  OBJECT_TYPE_CHECKPOINT_MAP : Z;
  OBJECT_TYPE_FS : Z;
  OBJECT_TYPE_FSTREE : Z;
  OBJECT_TYPE_BLOCKREFTREE : Z;
  OBJECT_TYPE_SNAPMETATREE : Z;
  OBJECT_TYPE_NX_REAPER : Z;
  OBJECT_TYPE_NX_REAP_LIST : Z;
  OBJECT_TYPE_OMAP_SNAPSHOT : Z;
  OBJECT_TYPE_EFI_JUMPSTART : Z;
  OBJECT_TYPE_FUSION_MIDDLE_TREE : Z;
  OBJECT_TYPE_NX_FUSION_WBC : Z;
  OBJECT_TYPE_NX_FUSION_WBC_LIST : Z;
  OBJECT_TYPE_ER_STATE : Z;
  OBJECT_TYPE_GBITMAP : Z;
  OBJECT_TYPE_GBITMAP_TREE : Z;
  OBJECT_TYPE_GBITMAP_BLOCK : Z;
  OBJECT_TYPE_INVALID : Z;
  OBJECT_TYPE_TEST : Z;
  OBJECT_TYPE_CONTAINER_KEYBAG : Z;
  OBJECT_TYPE_VOLUME_KEYBAG : Z
}.

(** The values the Apple File System Reference assigns; the two keybag types
    are the four-character codes 'keys' and 'recs'. *)
Definition apfs_types : ObjectTypes := {|
  OBJECT_TYPE_MASK := 0x0000ffff;
  OBJECT_TYPE_NX_SUPERBLOCK := 0x00000001;
  OBJECT_TYPE_BTREE := 0x00000002;
  OBJECT_TYPE_BTREE_NODE := 0x00000003;
  OBJECT_TYPE_SPACEMAN := 0x00000005;
  OBJECT_TYPE_SPACEMAN_CAB := 0x00000006;
  OBJECT_TYPE_SPACEMAN_CIB := 0x00000007;
  OBJECT_TYPE_SPACEMAN_BITMAP := 0x00000008;
  OBJECT_TYPE_SPACEMAN_FREE_QUEUE := 0x00000009;
  OBJECT_TYPE_EXTENT_LIST_TREE := 0x0000000a;
  OBJECT_TYPE_OMAP := 0x0000000b;
  OBJECT_TYPE_CHECKPOINT_MAP := 0x0000000c;
  OBJECT_TYPE_FS := 0x0000000d;
  OBJECT_TYPE_FSTREE := 0x0000000e;
  OBJECT_TYPE_BLOCKREFTREE := 0x0000000f;
  OBJECT_TYPE_SNAPMETATREE := 0x00000010;
  OBJECT_TYPE_NX_REAPER := 0x00000011;
  OBJECT_TYPE_NX_REAP_LIST := 0x00000012;
  OBJECT_TYPE_OMAP_SNAPSHOT := 0x00000013;
  OBJECT_TYPE_EFI_JUMPSTART := 0x00000014;
  OBJECT_TYPE_FUSION_MIDDLE_TREE := 0x00000015;
  OBJECT_TYPE_NX_FUSION_WBC := 0x00000016;
  OBJECT_TYPE_NX_FUSION_WBC_LIST := 0x00000017;
  OBJECT_TYPE_ER_STATE := 0x00000018;
  OBJECT_TYPE_GBITMAP := 0x00000019;
  OBJECT_TYPE_GBITMAP_TREE := 0x0000001a;
  OBJECT_TYPE_GBITMAP_BLOCK := 0x0000001b;
  OBJECT_TYPE_INVALID := 0x00000000;
  OBJECT_TYPE_TEST := 0x000000ff;
  OBJECT_TYPE_CONTAINER_KEYBAG := 0x6b657973;
  OBJECT_TYPE_VOLUME_KEYBAG := 0x72656373
|}.

(** A [switch] whose cases all [return] a string and whose [default] returns
    [NULL]: the first label equal to the scrutinee decides. *)
Definition switch (scrutinee : Z) (cases : list (Z * string)) : c_str :=
  snd <$> List.find (fun c => c.1 =? scrutinee) cases.

Section Functions.
Context `{ObjectTypes}.

Definition o_type_cases : list (Z * string) :=
  [ (OBJECT_TYPE_NX_SUPERBLOCK, "Container superblock");
    (OBJECT_TYPE_BTREE, "B-tree (root node)");
    (OBJECT_TYPE_BTREE_NODE, "B-tree (non-root) node");
    (OBJECT_TYPE_SPACEMAN, "Space manager");
    (OBJECT_TYPE_SPACEMAN_CAB, "Space manager chunk-info address block");
    (OBJECT_TYPE_SPACEMAN_CIB, "Space manager chunk-info block");
    (OBJECT_TYPE_SPACEMAN_BITMAP, "Space manager free-space bitmap");
    (OBJECT_TYPE_OMAP, "Object map");
    (OBJECT_TYPE_CHECKPOINT_MAP, "Checkpoint map");
    (OBJECT_TYPE_FS, "APFS volume");
    (OBJECT_TYPE_NX_REAPER, "Container reaper");
    (OBJECT_TYPE_NX_REAP_LIST, "Container reaper list");
    (OBJECT_TYPE_EFI_JUMPSTART, "EFI jumpstart boot info");
    (OBJECT_TYPE_NX_FUSION_WBC, "Fusion device write-back cache state");
    (OBJECT_TYPE_NX_FUSION_WBC_LIST, "Fusion device write-back cache list");
    (OBJECT_TYPE_ER_STATE, "Encryption-rolling state");
    (OBJECT_TYPE_GBITMAP, "General-purpose bitmap");
    (OBJECT_TYPE_GBITMAP_BLOCK, "General purpose bitmap block");
    (OBJECT_TYPE_INVALID, "(none/invalid)");
    (OBJECT_TYPE_TEST, "A type reserved for testing (should never appear on disk --- if it does, file a bug against the APFS implementation that created this object)");
    (OBJECT_TYPE_CONTAINER_KEYBAG, "Container keybag");
    (OBJECT_TYPE_VOLUME_KEYBAG, "Volume keybag") ]%string.

Definition o_type_to_string (o_type : Z) : c_str :=
  switch (Z.land o_type OBJECT_TYPE_MASK) o_type_cases.

Definition o_subtype_cases : list (Z * string) :=
  [ (OBJECT_TYPE_SPACEMAN_FREE_QUEUE, "Space manager free-space queue");
    (OBJECT_TYPE_EXTENT_LIST_TREE, "Extents-list tree");
    (OBJECT_TYPE_FSTREE, "File-system records tree");
    (OBJECT_TYPE_BLOCKREFTREE, "Extent references tree");
    (OBJECT_TYPE_SNAPMETATREE, "Volume snapshot metadata tree");
    (OBJECT_TYPE_OMAP_SNAPSHOT, "Object map snapshots tree");
    (OBJECT_TYPE_FUSION_MIDDLE_TREE, "Fusion inter-drive block-mapping tree");
    (OBJECT_TYPE_GBITMAP_TREE, "B-tree of general-purpose bitmaps") ]%string.

Definition o_subtype_to_string (o_subtype : Z) : c_str :=
  match o_type_to_string o_subtype with
  | Some type_string => Some type_string
  | None => switch (Z.land o_subtype OBJECT_TYPE_MASK) o_subtype_cases
  end.

Definition get_obj_type_string (obj : obj_phys_t) : c_str :=
  o_type_to_string (o_type obj).

Definition get_obj_subtype_string (obj : obj_phys_t) : c_str :=
  o_subtype_to_string (o_subtype obj).

End Functions.

(** No string occurs twice. *)
Fixpoint distinct (l : list string) : bool :=
  match l with
  | [] => true
  | s :: rest => negb (existsb (String.eqb s) rest) && distinct rest
  end.

Close Scope Z_scope.

End ObjectTypeNames.

(** ** [apfs/string/object.h]: printing an object header *)

Module ObjectHeaderPrint.
Import StringObject ObjectTypeNames.

Definition nl : ascii := "010"%char.

(** *** The part of [printf] the file uses

    Conversions [%s], [%x] and [%llx], the latter two with an optional [0]
    flag and a field width; [%x] prints an [unsigned int] (32 bits), [%llx]
    an [unsigned long long] (64 bits). *)

Definition hex_digit (d : Z) : ascii :=
  List.nth (Z.to_nat d) (chars "0123456789abcdef") "0"%char.

(** The [n] low hexadecimal digits of [z], most significant first. *)
Fixpoint hex_digits (n : nat) (z : Z) : list ascii :=
  match n with
  | O => []
  | S n' => hex_digits n' (z / 16) ++ [hex_digit (z mod 16)]
  end.

Fixpoint strip_zeros (ds : list ascii) : list ascii :=
  match ds with
  | c :: (_ :: _) as rest => if Ascii.eqb c "0" then strip_zeros rest else ds
  | _ => ds
  end.

Definition hex_field (zero : bool) (width bits : nat) (z : Z) : list ascii :=
  let ds := strip_zeros (hex_digits (bits / 4) (z mod 2 ^ Z.of_nat bits)) in
  replicate (width - length ds) (if zero then "0" else " ")%char ++ ds.

(** A [%s] argument is the C string found at the pointer, [None] when there
    is none to read. *)
Inductive arg : Type :=
  | ArgInt (z : Z)
  | ArgStr (s : option (list ascii)).

Inductive conv : Type :=
  | Plain
  | Spec (zero : bool) (width : nat) (longs : nat).

Definition int_bits (longs : nat) : nat :=
  match longs with
  | O => 32
  | _ => 64
  end.

Definition is_digit (c : ascii) : bool :=
  (48 <=? nat_of_ascii c)%nat && (nat_of_ascii c <=? 57)%nat.

(** The text a format and its arguments give; [None] where the behaviour is
    undefined (an argument missing or of the wrong kind, a [NULL] string) or
    the conversion is not one of the above. *)
Fixpoint format (st : conv) (fmt : list ascii) (args : list arg) : option (list ascii) :=
  match fmt, st with
  | [], Plain => Some []
  | [], Spec _ _ _ => None
  | c :: fmt', Plain =>
      if Ascii.eqb c "%" then format (Spec false 0 0) fmt' args
      else cons c <$> format Plain fmt' args
  | c :: fmt', Spec zero width longs =>
      if Ascii.eqb c "x" then
        match args with
        | ArgInt z :: args' =>
            app (hex_field zero width (int_bits longs) z) <$> format Plain fmt' args'
        | _ => None
        end
      else if Ascii.eqb c "s" then
        match args with
        | ArgStr (Some str) :: args' => app str <$> format Plain fmt' args'
        | _ => None
        end
      else if Ascii.eqb c "l" then format (Spec zero width (S longs)) fmt' args
      else if Ascii.eqb c "0" && (width =? 0)%nat && (longs =? 0)%nat
      then format (Spec true 0 0) fmt' args
      else if is_digit c && (longs =? 0)%nat
      then format (Spec zero (10 * width + (nat_of_ascii c - 48)) 0) fmt' args
      else None
  end.

(** [sprintf(buf, fmt, ...)]: the text and its terminator, stored from the
    start of the block; [None] if they do not fit. *)
Definition sprintf (buf fmt : list ascii) (args : list arg) : option (list ascii) :=
  text ← format Plain fmt args;
  b ← memcpy buf 0 text;
  store b (length text) NUL.

(** *** Heap blocks and the two output streams *)

Inductive ptr : Type :=
  | Null
  | Literal (s : string)
  | Block (id : nat).

Record world : Type := World {
  live : list (nat * list ascii);      (* allocated blocks, newest first *)
  next_id : nat;
  stdout : list ascii;
  stderr : list ascii
}.

Inductive exec (A : Type) : Type :=
  | Finished (a : A)
  | Exited (status : Z) (w : world)
  | Crashed.
Arguments Finished {A} a.
Arguments Exited {A} status w.
Arguments Crashed {A}.

#[global] Instance exec_bind : MBind exec := fun A B f m =>
  match m with
  | Finished a => f a
  | Exited status w => Exited status w
  | Crashed => Crashed
  end.

Definition put_out (text : list ascii) (w : world) : world :=
  World (live w) (next_id w) (stdout w ++ text) (stderr w).

Definition put_err (text : list ascii) (w : world) : world :=
  World (live w) (next_id w) (stdout w) (stderr w ++ text).

(** A block fresh from the allocator gets the next identifier. *)
Definition own (b : list ascii) (w : world) : ptr * world :=
  (Block (next_id w),
   World ((next_id w, b) :: live w) (S (next_id w)) (stdout w) (stderr w)).

Fixpoint release (id : nat) (l : list (nat * list ascii)) : option (list (nat * list ascii)) :=
  match l with
  | [] => None
  | e :: rest => if (e.1 =? id)%nat then Some rest else cons e <$> release id rest
  end.

(** [free(p)]: nothing for [NULL]; undefined for a pointer that is not a live
    block. *)
Definition free (p : ptr) (w : world) : exec world :=
  match p with
  | Null => Finished w
  | Literal _ => Crashed
  | Block id =>
      match release id (live w) with
      | Some l => Finished (World l (next_id w) (stdout w) (stderr w))
      | None => Crashed
      end
  end.

(** The characters before the first terminator of a block. *)
Fixpoint c_string (buf : list ascii) : option (list ascii) :=
  match buf with
  | [] => None
  | c :: rest => if Ascii.eqb c NUL then Some [] else cons c <$> c_string rest
  end.

Definition deref (w : world) (p : ptr) : option (list ascii) :=
  match p with
  | Null => None
  | Literal s => Some (chars s)
  | Block id => e ← List.find (fun e => (e.1 =? id)%nat) (live w); c_string e.2
  end.

Definition printf (fmt : list ascii) (args : list arg) (w : world) : exec world :=
  match format Plain fmt args with
  | Some text => Finished (put_out text w)
  | None => Crashed
  end.

Section Functions.
Context `{ObjectConstants} `{ObjectTypes}.
Variable malloc : nat -> option (list ascii).
Variable realloc : list ascii -> nat -> option (list ascii).

(** The body of [if (!type_string)] and of [if (!subtype_string)]: the two
    differ in the format, the value printed and the message on failure. *)
Definition unknown_string (format_string : string) (value : Z) (abort : list ascii)
    (w : world) : exec (ptr * world) :=
  match malloc (strlen format_string + 5) with
  | None => Exited (-1) (put_err abort w)
  | Some fresh =>
      match sprintf fresh (chars format_string) [ArgInt value] with
      | Some b => Finished (own b w)
      | None => Crashed
      end
  end.

Definition type_format : string :=
  "Unknown type (0x%08x) --- perhaps this type was introduced in a later version of APFS than that published on 2019-02-27.".

Definition subtype_format : string :=
  "Unknown subtype (0x%08x) --- perhaps this subtype was introduced in a later version of APFS than that published on 2019-02-27.".

Definition type_abort : list ascii :=
  chars "ABORT: print_obj_hdr_info: Could not allocate sufficient memory when generating `type_string` in the case where the object type is not recognised." ++ [nl].

Definition subtype_abort : list ascii :=
  chars "ABORT: print_obj_hdr_info: Could not allocate sufficient memory when generating `subtype_string` in the case where the object subtype is not recognised." ++ [nl].

Definition print_obj_hdr_info (obj : obj_phys_t) (w : world) : exec world :=
  match get_obj_type_flags_string malloc realloc obj with
  | Undefined => Crashed
  | Returns r =>
      let '(type_flags_string, w) :=
        match r with
        | Some b => own b w
        | None => (Null, w)
        end in
      '(type_string, malloced_type_string, w) ←
        match get_obj_type_string obj with
        | Some s => Finished (Literal s, false, w)
        | None =>
            '(p, w) ← unknown_string type_format
                        (Z.land (o_type obj) OBJECT_TYPE_MASK) type_abort w;
            Finished (p, true, w)
        end;
      '(subtype_string, malloced_subtype_string, w) ←
        match get_obj_subtype_string obj with
        | Some s => Finished (Literal s, false, w)
        | None =>
            '(p, w) ← unknown_string subtype_format (o_subtype obj) subtype_abort w;
            Finished (p, true, w)
        end;
      w ← printf (chars "Stored checksum:    0x%016llx" ++ [nl]) [ArgInt (o_cksum obj)] w;
      w ← printf (chars "OID:                0x%llx" ++ [nl]) [ArgInt (o_oid obj)] w;
      w ← printf (chars "XID:                0x%llx" ++ [nl]) [ArgInt (o_xid obj)] w;
      w ← printf (chars "Storage type:       %s" ++ [nl])
                 [ArgStr (chars <$> get_obj_storage_type_string obj)] w;
      w ← printf (chars "Type flags:         %s" ++ [nl])
                 [ArgStr (deref w type_flags_string)] w;
      w ← printf (chars "Type:               %s" ++ [nl]) [ArgStr (deref w type_string)] w;
      w ← printf (chars "Subtype:            %s" ++ [nl]) [ArgStr (deref w subtype_string)] w;
      w ← free type_flags_string w;
      w ← (if malloced_type_string : bool then free type_string w else Finished w);
      if malloced_subtype_string : bool then free subtype_string w else Finished w
  end.

(** *** The text the function is meant to print *)

Definition type_text (obj : obj_phys_t) : list ascii :=
  match get_obj_type_string obj with
  | Some s => chars s
  | None =>
      chars "Unknown type (0x"
      ++ hex_field true 8 32 (Z.land (o_type obj) OBJECT_TYPE_MASK)
      ++ chars ") --- perhaps this type was introduced in a later version of APFS than that published on 2019-02-27."
  end.

Definition subtype_text (obj : obj_phys_t) : list ascii :=
  match get_obj_subtype_string obj with
  | Some s => chars s
  | None =>
      chars "Unknown subtype (0x"
      ++ hex_field true 8 32 (o_subtype obj)
      ++ chars ") --- perhaps this subtype was introduced in a later version of APFS than that published on 2019-02-27."
  end.

Definition storage_text (obj : obj_phys_t) : list ascii :=
  match get_obj_storage_type_string obj with
  | Some s => chars s
  | None => []
  end.

Definition hdr_text (obj : obj_phys_t) : list ascii :=
  (chars "Stored checksum:    0x" ++ hex_field true 16 64 (o_cksum obj) ++ [nl])
  ++ (chars "OID:                0x" ++ hex_field false 0 64 (o_oid obj) ++ [nl])
  ++ (chars "XID:                0x" ++ hex_field false 0 64 (o_xid obj) ++ [nl])
  ++ (chars "Storage type:       " ++ storage_text obj ++ [nl])
  ++ (chars "Type flags:         " ++ chars (type_flags_text obj) ++ [nl])
  ++ (chars "Type:               " ++ type_text obj ++ [nl])
  ++ (chars "Subtype:            " ++ subtype_text obj ++ [nl]).

End Functions.

Definition empty_world : world := World [] 0 [] [].

(** An allocator that serves requests of one size only. *)
Definition malloc_only (size n : nat) : option (list ascii) :=
  if (n =? size)%nat then Some (replicate n "#"%char) else None.

Definition obj_of (cksum oid xid ty sub : Z) : obj_phys_t :=
  {| o_cksum := cksum; o_oid := oid; o_xid := xid; o_type := ty; o_subtype := sub |}.

End ObjectHeaderPrint.

(** * Properties *)

(** ** Flag words and constants of [btree.h] *)

Section BtreeConstants.
Import Btree.
Open Scope Z_scope.

Lemma testbit_small (a : Z) (k i : nat) :
  0 <= a < 2 ^ Z.of_nat k -> (k <= i)%nat -> Z.testbit a (Z.of_nat i) = false.
Proof.
  intros [Ha Hlt] Hki.
  destruct (Z.eq_dec a 0) as [->|Hne]; [apply Z.bits_0|].
  apply Z.bits_above_log2; [lia|].
  assert (Z.log2 a < Z.of_nat k) by (apply Z.log2_lt_pow2; lia).
  lia.
Qed.

Lemma land_lor_zero (w a b : Z) :
  Z.land w (Z.lor a b) = 0 <-> Z.land w a = 0 /\ Z.land w b = 0.
Proof.
  rewrite Z.land_lor_distr_r. apply Z.lor_eq_0_iff.
Qed.

(** C2.  The node flags are bit 0 (root, 0x0001), bit 1 (leaf, 0x0002), bit 2
    (fixed key/value size, 0x0004) and bit 15 (check key offset, 0x8000), and
    the header defines no node-flag macro on any other bit. *)
Theorem btnode_flag_bits :
  BTNODE_ROOT = 0x0001 /\ BTNODE_ROOT = 2 ^ 0 /\
  BTNODE_LEAF = 0x0002 /\ BTNODE_LEAF = 2 ^ 1 /\
  BTNODE_FIXED_KV_SIZE = 0x0004 /\ BTNODE_FIXED_KV_SIZE = 2 ^ 2 /\
  BTNODE_CHECK_KOFF_INVAL = 0x8000 /\ BTNODE_CHECK_KOFF_INVAL = 2 ^ 15 /\
  forall i : nat,
    Z.testbit (flag_mask btnode_flags) (Z.of_nat i) = true <-> In i [0; 1; 2; 15]%nat.
Proof.
  repeat (split; [reflexivity|]).
  intros i. destruct (le_lt_dec 16 i) as [Hge|Hlt].
  - rewrite (testbit_small _ 16 i) by (vm_compute; intuition (congruence || lia)).
    split; [discriminate|]. simpl. lia.
  - do 16 (destruct i as [|i]; [vm_compute; intuition (congruence || lia)|]). lia.
Qed.

(** C3.  The tree flags are unit64-keys 0x01, sequential-insert 0x02,
    allow-ghosts 0x04, ephemeral 0x08, physical 0x10, non-persistent 0x20 and
    non-aligned-kv 0x40; these seven bits are all the header defines, so no
    bit stands for virtual space, which is the space of a word with neither
    the ephemeral nor the physical bit. *)
Theorem btree_flag_bits :
  BTREE_UNIT64_KEYS = 0x01 /\ BTREE_SEQUENTIAL_INSERT = 0x02 /\
  BTREE_ALLOW_GHOSTS = 0x04 /\ BTREE_EPHEMERAL = 0x08 /\
  BTREE_PHYSICAL = 0x10 /\ BTREE_NONPERSISTENT = 0x20 /\
  BTREE_KV_NONALIGNED = 0x40 /\
  (forall i : nat,
     Z.testbit (flag_mask btree_flags) (Z.of_nat i) = true <-> (i < 7)%nat) /\
  (forall i : nat,
     Z.testbit (Z.lor BTREE_EPHEMERAL BTREE_PHYSICAL) (Z.of_nat i) = true
     <-> In i [3; 4]%nat) /\
  (forall w : Z,
     btree_space w = Some Virtual
     <-> Z.land w (Z.lor BTREE_EPHEMERAL BTREE_PHYSICAL) = 0) /\
  (forall w : Z, btree_space w = Some Ephemeral
     <-> Z.land w BTREE_EPHEMERAL <> 0 /\ Z.land w BTREE_PHYSICAL = 0) /\
  (forall w : Z, btree_space w = Some Physical
     <-> Z.land w BTREE_EPHEMERAL = 0 /\ Z.land w BTREE_PHYSICAL <> 0).
Proof.
  repeat (split; [reflexivity|]).
  split; [|split].
  - intros i. destruct (le_lt_dec 7 i) as [Hge|Hlt].
    + rewrite (testbit_small _ 7 i) by (vm_compute; intuition (congruence || lia)).
      split; [discriminate|lia].
    + do 7 (destruct i as [|i]; [vm_compute; intuition (congruence || lia)|]). lia.
  - intros i. destruct (le_lt_dec 5 i) as [Hge|Hlt].
    + rewrite (testbit_small _ 5 i) by (vm_compute; intuition (congruence || lia)).
      split; [discriminate|]. simpl. lia.
    + do 5 (destruct i as [|i]; [vm_compute; intuition (congruence || lia)|]). lia.
  - split; [|split]; intros w; rewrite ?land_lor_zero; unfold btree_space, has_flag;
      destruct (Z.eqb_spec (Z.land w BTREE_EPHEMERAL) 0),
               (Z.eqb_spec (Z.land w BTREE_PHYSICAL) 0); simpl;
      intuition congruence.
Qed.

(** C7.  Default node size 4096, at least 4 entries per node, the table of
    contents grows by 8 entries and may keep 16 unused ones, twice the
    increment. *)
Theorem btree_constants :
  BTREE_NODE_SIZE_DEFAULT = 4096 /\
  BTREE_NODE_MIN_ENTRY_COUNT = 4 /\
  BTREE_TOC_ENTRY_INCREMENT = 8 /\
  BTREE_TOC_ENTRY_MAX_UNUSED = 16 /\
  BTREE_TOC_ENTRY_MAX_UNUSED = 2 * BTREE_TOC_ENTRY_INCREMENT.
Proof. repeat split. Qed.

End BtreeConstants.

(** ** Structure layouts of [btree.h] *)

Section BtreeLayout.
Import CLayout Btree.
Open Scope string_scope.

(** C4.  A node is the object header, then 16-bit flags, 16-bit level, 32-bit
    key count and four location descriptors (table space, free space, key
    free list, value free list), each a 16-bit offset followed by a 16-bit
    length; the data area starts right after them, with no padding. *)
Theorem btree_node_phys_layout :
  table btree_node_phys_t =
    [ ("btn_o", 0, 32); ("btn_flags", 32, 2); ("btn_level", 34, 2);
      ("btn_nkeys", 36, 4); ("btn_table_space", 40, 4);
      ("btn_free_space", 44, 4); ("btn_key_free_list", 48, 4);
      ("btn_val_free_list", 52, 4); ("btn_data", 56, 0) ] /\
  m_type <$> layout btree_node_phys_t =
    [ obj_phys_t; uint16_t; uint16_t; uint32_t;
      nloc_t; nloc_t; nloc_t; nloc_t; CFlex uint64_t ] /\
  table nloc_t = [ ("off", 0, 2); ("len", 2, 2) ] /\
  m_type <$> layout nloc_t = [ uint16_t; uint16_t ] /\
  sizeof nloc_t = 4 /\
  offsetof btree_node_phys_t "btn_flags" = Some (sizeof obj_phys_t) /\
  offsetof btree_node_phys_t "btn_data" = Some (sizeof btree_node_phys_t) /\
  padding btree_node_phys_t = 0.
Proof. repeat split. Qed.

(** C5.  A table-of-contents entry is a [kvloc_t], two location descriptors
    and 8 bytes, unless the node has the fixed-size flag, when it is a
    [kvoff_t], two 16-bit offsets and 4 bytes: half the size. *)
Theorem toc_entry_encodings :
  table kvloc_t = [ ("k", 0, 4); ("v", 4, 4) ] /\
  m_type <$> layout kvloc_t = [ nloc_t; nloc_t ] /\
  table kvoff_t = [ ("k", 0, 2); ("v", 2, 2) ] /\
  m_type <$> layout kvoff_t = [ uint16_t; uint16_t ] /\
  sizeof kvloc_t = 8 /\ sizeof kvoff_t = 4 /\
  2 * sizeof kvoff_t = sizeof kvloc_t /\
  forall btn_flags : Z,
    toc_entry_t btn_flags = (if Z.testbit btn_flags 2 then kvoff_t else kvloc_t) /\
    sizeof (toc_entry_t btn_flags) = (if Z.testbit btn_flags 2 then 4 else 8).
Proof.
  repeat (split; [reflexivity|]).
  intros w. unfold toc_entry_t, has_flag.
  assert (Hbit : Z.land w BTNODE_FIXED_KV_SIZE = if Z.testbit w 2 then 4%Z else 0%Z).
  { change BTNODE_FIXED_KV_SIZE with (2 ^ 2)%Z.
    apply Z.bits_inj'. intros n Hn. rewrite Z.land_spec.
    destruct (Z.eq_dec n 2%Z) as [->|Hne].
    - rewrite Z.pow2_bits_true by lia. rewrite andb_true_r.
      destruct (Z.testbit w 2); reflexivity.
    - rewrite Z.pow2_bits_false by congruence. rewrite andb_false_r.
      destruct (Z.testbit w 2); [|symmetry; apply Z.bits_0].
      change 4%Z with (2 ^ 2)%Z. symmetry. apply Z.pow2_bits_false. congruence. }
  rewrite Hbit. destruct (Z.testbit w 2); split; reflexivity.
Qed.

(** C6.  The root trailer is four 32-bit fields (flags, node size, key size,
    value size), then the 32-bit longest key and longest value, then the
    64-bit key count and node count: 40 bytes, none of them padding. *)
Theorem btree_info_layout :
  table btree_info_fixed_t =
    [ ("bt_flags", 0, 4); ("bt_node_size", 4, 4);
      ("bt_key_size", 8, 4); ("bt_val_size", 12, 4) ] /\
  table btree_info_t =
    [ ("bt_fixed", 0, 16); ("bt_longest_key", 16, 4); ("bt_longest_val", 20, 4);
      ("bt_key_count", 24, 8); ("bt_node_count", 32, 8) ] /\
  m_type <$> layout btree_info_t =
    [ btree_info_fixed_t; uint32_t; uint32_t; uint64_t; uint64_t ] /\
  sizeof btree_info_t = 40 /\
  padding btree_info_fixed_t = 0 /\
  padding btree_info_t = 0.
Proof. repeat split. Qed.

End BtreeLayout.

(** ** Object-header strings *)

Section ObjectStrings.
Import StringObject.
Context `{ObjectConstants}.
Open Scope Z_scope.

(** C9.  [get_obj_storage_type_string] never returns [NULL]: its result is
    one of "Virtual", "Ephemeral", "Physical" and "(invalid type)", and two
    headers whose [o_type] agree under [OBJ_STORAGETYPE_MASK] get the same
    string. *)
Theorem storage_type_string_total (obj : obj_phys_t) :
  (exists s, get_obj_storage_type_string obj = Some s /\
     In s [ "Virtual"; "Ephemeral"; "Physical"; "(invalid type)" ]%string) /\
  (forall obj' : obj_phys_t,
     Z.land (o_type obj) OBJ_STORAGETYPE_MASK = Z.land (o_type obj') OBJ_STORAGETYPE_MASK ->
     get_obj_storage_type_string obj = get_obj_storage_type_string obj').
Proof.
  split.
  - unfold get_obj_storage_type_string.
    repeat match goal with |- context [if ?c then _ else _] => destruct c end;
      eexists; (split; [reflexivity|]); simpl; auto.
  - intros obj' Heq. unfold get_obj_storage_type_string. rewrite Heq. reflexivity.
Qed.

End ObjectStrings.

Section FlagsString.
Import StringObject.
Context `{ObjectConstants}.
Open Scope nat_scope.

Lemma chars_length (s : string) : length (chars s) = strlen s.
Proof.
  unfold chars, strlen. induction s as [|c s IH]; simpl; [reflexivity|]. now rewrite IH.
Qed.

Lemma written_length (w b : list ascii) :
  length w <= length b -> length (written w b) = length b.
Proof.
  intros Hle. unfold written. rewrite length_app, length_drop. lia.
Qed.

Lemma store_written (w b : list ascii) (c : ascii) :
  length w < length b ->
  store (written w b) (length w) c = Some (written (w ++ [c]) b).
Proof.
  intros Hlt. unfold store.
  rewrite written_length by lia.
  destruct (Nat.ltb_spec (length w) (length b)) as [_|Hbad]; [|lia].
  f_equal. unfold written.
  destruct (lookup_lt_is_Some_2 b (length w) Hlt) as [x Hx].
  rewrite (drop_S _ _ _ Hx).
  replace (length w) with (length w + 0) at 1 by lia.
  rewrite insert_app_r. simpl.
  rewrite <- app_assoc, length_app. simpl.
  replace (length w + 1) with (S (length w)) by lia. reflexivity.
Qed.

Lemma memcpy_written (s w b : list ascii) :
  length w + length s <= length b ->
  memcpy (written w b) (length w) s = Some (written (w ++ s) b).
Proof.
  revert w. induction s as [|c s IH]; intros w Hle; simpl in *.
  - rewrite app_nil_r. reflexivity.
  - rewrite store_written by lia. simpl.
    replace (S (length w)) with (length (w ++ [c])) by (rewrite length_app; simpl; lia).
    rewrite IH by (rewrite length_app; simpl; lia).
    rewrite <- app_assoc. reflexivity.
Qed.

Lemma c_strlen_app (w r : list ascii) :
  Forall (fun c => c <> NUL) w -> c_strlen (w ++ NUL :: r) = Some (length w).
Proof.
  intros Hw. induction Hw as [|c w Hc Hw IH]; simpl.
  - reflexivity.
  - destruct (Ascii.eqb_spec c NUL) as [->|_]; [contradiction|].
    rewrite IH. reflexivity.
Qed.

Lemma c_strlen_written (w b : list ascii) :
  Forall (fun c => c <> NUL) w ->
  c_strlen (written (w ++ [NUL]) b) = Some (length w).
Proof.
  intros Hw. unfold written. rewrite <- app_assoc. simpl.
  apply c_strlen_app, Hw.
Qed.

Lemma append_flag_written (obj : obj_phys_t) (w b : list ascii) (i : nat) :
  i < 3 ->
  length (next_text obj w i) <= length b ->
  append_flag obj (written w b, length w) i
  = Some (written (next_text obj w i) b, length (next_text obj w i)).
Proof.
  intros Hi. unfold append_flag, next_text.
  destruct (lookup_lt_is_Some_2 flag_constants i) as [flag ->]; [simpl; lia|].
  destruct (lookup_lt_is_Some_2 flag_strings i) as [str ->]; [simpl; lia|].
  simpl. destruct (_ =? _)%Z; [reflexivity|]. intros Hroom.
  rewrite !length_app in Hroom.
  destruct w as [|a w]; simpl (length []) in *; simpl (separator _) in *.
  - pose proof (memcpy_written (chars str) [] b) as Hm.
    change (@length ascii []) with 0 in Hm. simpl in Hroom.
    simpl. rewrite Hm by lia.
    simpl. rewrite chars_length. reflexivity.
  - remember (a :: w) as w' eqn:Hw'.
    replace (length w' =? 0) with false by (subst w'; reflexivity).
    simpl in Hroom.
    rewrite store_written by lia. simpl.
    replace (S (length w')) with (length (w' ++ [","%char]))
      by (rewrite length_app; simpl; lia).
    rewrite store_written by (rewrite length_app; simpl; lia). simpl.
    replace (S (length (w' ++ [","%char])))
      with (length ((w' ++ [","%char]) ++ [" "%char]))
      by (rewrite !length_app; simpl; lia).
    rewrite memcpy_written by (rewrite !length_app; simpl; lia).
    simpl. rewrite <- !app_assoc. simpl.
    rewrite !length_app. simpl. rewrite chars_length.
    do 3 f_equal. lia.
Qed.

Lemma append_none_written (obj : obj_phys_t) (b : list ascii) :
  length (final_text obj) <= length b ->
  append_none (written (loop_text obj) b, length (loop_text obj))
  = Some (written (final_text obj) b, length (final_text obj)).
Proof.
  unfold append_none, final_text. cbn [fst snd].
  destruct (loop_text obj) as [|a w]; [|reflexivity].
  intros Hroom. change (@length ascii [] =? 0) with true. cbv iota.
  rewrite (memcpy_written (chars "(none)") [] b) by exact Hroom. reflexivity.
Qed.

(** The three tests of the loop decide everything the function writes. *)
Ltac flag_cases obj :=
  unfold final_text, loop_text, next_text, type_flags_text, set_flag_names;
  simpl; rewrite ?filter_cons, ?filter_nil; simpl;
  destruct (Z.eqb_spec (Z.land (o_type obj) OBJ_NOHEADER) 0),
           (Z.eqb_spec (Z.land (o_type obj) OBJ_ENCRYPTED) 0),
           (Z.eqb_spec (Z.land (o_type obj) OBJ_NONPERSISTENT) 0);
  repeat case_decide; try tauto.

Lemma final_text_spec (obj : obj_phys_t) :
  final_text obj = chars (type_flags_text obj).
Proof. flag_cases obj; reflexivity. Qed.

Lemma final_text_room (obj : obj_phys_t) (k : nat) :
  k <= 3 ->
  length (foldl (next_text obj) [] (seq 0 k)) <= 150 /\
  length (final_text obj) <= 150.
Proof.
  intros Hk. split.
  - destruct k as [|[|[|[|k]]]]; [..|lia]; unfold next_text; simpl;
      destruct (Z.eqb_spec (Z.land (o_type obj) OBJ_NOHEADER) 0),
               (Z.eqb_spec (Z.land (o_type obj) OBJ_ENCRYPTED) 0),
               (Z.eqb_spec (Z.land (o_type obj) OBJ_NONPERSISTENT) 0); simpl; lia.
  - flag_cases obj; simpl; lia.
Qed.

Lemma final_text_no_nul (obj : obj_phys_t) :
  Forall (fun c => c <> NUL) (final_text obj).
Proof.
  flag_cases obj; repeat (constructor; [discriminate|]); constructor.
Qed.

(** C10.  With no type flag set in [o_type] the function returns "(none)";
    otherwise it returns the names of the flags that are set, in the order
    No-header, Encrypted, Non-persistent, joined by ", "; bits of [o_type]
    outside the three flags do not matter.  This is what the function
    returns when its two allocations succeed. *)
Theorem type_flags_string_text
    (malloc : nat -> option (list ascii))
    (realloc : list ascii -> nat -> option (list ascii))
    (obj : obj_phys_t) :
  (forall n, exists b, malloc n = Some b /\ length b = n) ->
  (forall b n, n <= length b -> realloc b n = Some (take n b)) ->
  get_obj_type_flags_string malloc realloc obj
    = Returns (Some (chars (type_flags_text obj) ++ [NUL])) /\
  (set_flag_names obj = [] -> type_flags_text obj = "(none)"%string) /\
  (set_flag_names obj <> [] ->
     type_flags_text obj = join ", " (set_flag_names obj)) /\
  set_flag_names obj
    = snd <$> filter (fun p => Z.land (o_type obj) p.1 <> 0%Z)
                     [ (OBJ_NOHEADER, List.nth 0 flag_strings ""%string);
                       (OBJ_ENCRYPTED, List.nth 1 flag_strings ""%string);
                       (OBJ_NONPERSISTENT, List.nth 2 flag_strings ""%string) ] /\
  (forall obj' : obj_phys_t,
     (forall flag, In flag flag_constants ->
        Z.land (o_type obj) flag = 0%Z <-> Z.land (o_type obj') flag = 0%Z) ->
     get_obj_type_flags_string malloc realloc obj'
       = get_obj_type_flags_string malloc realloc obj).
Proof.
  intros Hmalloc Hrealloc.
  assert (Hrun : forall o,
    get_obj_type_flags_string malloc realloc o
      = Returns (Some (chars (type_flags_text o) ++ [NUL]))).
  { intros o. unfold get_obj_type_flags_string.
    change max_mem_required with (Some 152).
    destruct (Hmalloc 152) as (b & -> & Hlen).
    pose proof (final_text_room o) as Hroom.
    change (seq 0 3) with [0; 1; 2]. cbn [foldl].
    change (Some (b, 0)) with (Some (written [] b, length (@nil ascii))).
    cbn [mbind option_bind].
    rewrite append_flag_written by (try lia; specialize (Hroom 1 ltac:(lia)); simpl in Hroom; lia).
    cbn [mbind option_bind].
    rewrite append_flag_written by (try lia; specialize (Hroom 2 ltac:(lia)); simpl in Hroom; lia).
    cbn [mbind option_bind].
    rewrite append_flag_written by (try lia; specialize (Hroom 3 ltac:(lia)); simpl in Hroom; lia).
    cbn [mbind option_bind].
    change (next_text o (next_text o (next_text o [] 0) 1) 2) with (loop_text o).
    destruct (Hroom 0 ltac:(lia)) as [_ Hfin].
    rewrite append_none_written by lia.
    cbn [mbind option_bind fst snd].
    rewrite store_written by lia. cbn [mbind option_bind].
    rewrite c_strlen_written by apply final_text_no_nul.
    cbn [mbind option_bind].
    rewrite Hrealloc
      by (rewrite written_length by (rewrite length_app; simpl; lia); lia).
    unfold written.
    replace (length (final_text o) + 1) with (length (final_text o ++ [NUL]))
      by (rewrite length_app; reflexivity).
    rewrite take_app_length. rewrite final_text_spec. reflexivity. }
  split; [apply Hrun|].
  split; [intros Hnone; unfold type_flags_text; rewrite Hnone; reflexivity|].
  split; [intros Hsome; unfold type_flags_text;
          destruct (set_flag_names obj); [contradiction|reflexivity]|].
  split; [reflexivity|].
  intros obj' Hsame. rewrite !Hrun. do 3 f_equal.
  unfold type_flags_text, set_flag_names. simpl.
  pose proof (Hsame OBJ_NOHEADER ltac:(simpl; auto)) as H1.
  pose proof (Hsame OBJ_ENCRYPTED ltac:(simpl; auto)) as H2.
  pose proof (Hsame OBJ_NONPERSISTENT ltac:(simpl; auto)) as H3.
  rewrite !filter_cons, !filter_nil. simpl.
  repeat case_decide; try tauto; reflexivity.
Qed.

End FlagsString.

(** ** The checksum gate of the node decoder *)

Section Fletcher.
Import NodeDecoder.
Open Scope Z_scope.

Lemma byte_val_range (b : Byte.byte) : 0 <= byte_val b < 256.
Proof.
  unfold byte_val. pose proof (Byte.to_N_bounded b). lia.
Qed.

Lemma byte_val_inj (a b : Byte.byte) : byte_val a = byte_val b -> a = b.
Proof.
  unfold byte_val. intros Heq. apply N2Z.inj in Heq.
  pose proof (Byte.of_to_N a) as Ha. rewrite Heq, Byte.of_to_N in Ha.
  congruence.
Qed.

Lemma bsum_shift (bs : list Byte.byte) (k : nat) : bsum (4 + k) bs = bsum k bs.
Proof.
  revert k. induction bs as [|b bs IH]; intros k; [reflexivity|].
  cbn [bsum]. change (S (4 + k)) with (4 + S k)%nat. rewrite IH.
  replace ((4 + k) mod 4)%nat with (k mod 4)%nat; [reflexivity|].
  replace (4 + k)%nat with (k + 1 * 4)%nat by lia.
  symmetry. apply Nat.Div0.mod_add.
Qed.

Lemma words_sum (bs : list Byte.byte) : zsum (words bs) = bsum 0 bs.
Proof.
  remember (length bs) as n eqn:Hn.
  revert bs Hn. induction n as [n IH] using lt_wf_ind. intros bs Hn.
  destruct bs as [|b0 [|b1 [|b2 [|b3 rest]]]];
    try (cbn; lia).
  cbn [words zsum fold_right]. fold (zsum (words rest)).
  rewrite (IH (length rest)) by (simpl in Hn; lia || reflexivity).
  cbn [bsum]. pose proof (bsum_shift rest 0) as Hsh.
  cbn [Nat.add] in Hsh. rewrite Hsh.
  cbn. lia.
Qed.

Lemma bsum_insert (bs : list Byte.byte) (k i : nat) (v old : Byte.byte) :
  bs !! i = Some old ->
  bsum k (<[i:=v]> bs)
  = bsum k bs + (byte_val v - byte_val old) * 256 ^ Z.of_nat ((k + i) mod 4).
Proof.
  revert k i. induction bs as [|b bs IH]; intros k i Hi; [discriminate|].
  destruct i as [|i]; cbn in Hi; cbn [bsum].
  - injection Hi as ->. change (<[0%nat:=v]> (old :: bs)) with (v :: bs).
    cbn [bsum]. rewrite Nat.add_0_r. lia.
  - change (<[S i:=v]> (b :: bs)) with (b :: <[i:=v]> bs). cbn [bsum].
    rewrite (IH (S k) i Hi).
    replace (S k + i)%nat with (k + S i)%nat by lia. lia.
Qed.

Lemma fletcher_sum1 (ws : list Z) (a : Z * Z) :
  (foldl fletcher_step a ws).1 mod fletcher_mod = (a.1 + zsum ws) mod fletcher_mod.
Proof.
  revert a. induction ws as [|w ws IH]; intros a; cbn [foldl zsum fold_right].
  - rewrite Z.add_0_r. reflexivity.
  - rewrite IH. cbn [fletcher_step fst]. fold (zsum ws).
    rewrite Zplus_mod_idemp_l. f_equal. lia.
Qed.

Lemma fletcher_sum1_range (ws : list Z) (a : Z * Z) :
  0 <= a.1 < fletcher_mod -> 0 <= (foldl fletcher_step a ws).1 < fletcher_mod.
Proof.
  revert a. induction ws as [|w ws IH]; intros a Ha; cbn [foldl]; [exact Ha|].
  apply IH. cbn [fletcher_step fst]. apply Z.mod_pos_bound. reflexivity.
Qed.

Lemma lor_shiftl_add (hi lo : Z) :
  0 <= lo < 2 ^ 32 -> Z.lor (Z.shiftl hi 32) lo = hi * 2 ^ 32 + lo.
Proof.
  intros Hlo. rewrite Z.shiftl_mul_pow2 by lia.
  rewrite <- Z.add_lor_land.
  assert (Hland : Z.land (hi * 2 ^ 32) lo = 0).
  { apply Z.bits_inj'. intros n Hn. rewrite Z.land_spec, Z.bits_0.
    destruct (Z.lt_ge_cases n 32) as [Hlt|Hge].
    - rewrite Z.mul_pow2_bits_low by lia. reflexivity.
    - replace (Z.testbit lo n) with false; [apply andb_false_r|].
      symmetry. destruct (Z.eq_dec lo 0) as [->|Hne]; [apply Z.bits_0|].
      apply Z.bits_above_log2; [lia|].
      assert (Z.log2 lo < 32) by (apply Z.log2_lt_pow2; lia). lia. }
  rewrite Hland. lia.
Qed.

(** Fletcher-64 tells apart any two runs of bytes that differ in one byte. *)
Lemma fletcher64_detects (bs : list Byte.byte) (i : nat) (v : Byte.byte) :
  (i < length bs)%nat -> bs !! i <> Some v ->
  fletcher64 (<[i:=v]> bs) <> fletcher64 bs.
Proof.
  intros Hi Hv.
  destruct (lookup_lt_is_Some_2 bs i Hi) as [old Hold].
  assert (Hne : byte_val v <> byte_val old).
  { intros Heq. apply byte_val_inj in Heq. congruence. }
  unfold fletcher64, fletcher_sums.
  pose proof (fletcher_sum1 (words bs) (0, 0)) as Hs.
  pose proof (fletcher_sum1 (words (<[i:=v]> bs)) (0, 0)) as Hs'.
  pose proof (fletcher_sum1_range (words bs) (0, 0) ltac:(cbn; unfold fletcher_mod; lia)) as Hr.
  pose proof (fletcher_sum1_range (words (<[i:=v]> bs)) (0, 0) ltac:(cbn; unfold fletcher_mod; lia)) as Hr'.
  rewrite !words_sum in Hs, Hs'. rewrite (bsum_insert bs 0 i v old Hold) in Hs'.
  cbn [fst] in Hs, Hs'. rewrite !Z.add_0_l in Hs, Hs'.
  set (d := (byte_val v - byte_val old) * 256 ^ Z.of_nat ((0 + i) mod 4)) in *.
  assert (Hd : d <> 0 /\ - fletcher_mod < d < fletcher_mod).
  { pose proof (byte_val_range v). pose proof (byte_val_range old).
    pose proof (Nat.mod_upper_bound (0 + i) 4 ltac:(lia)) as Hm.
    subst d. unfold fletcher_mod.
    destruct ((0 + i) mod 4)%nat as [|[|[|[|m]]]]; [..|lia];
      match goal with |- context [256 ^ ?e] =>
        let r := eval vm_compute in (256 ^ e) in change (256 ^ e) with r end;
      lia. }
  destruct (foldl fletcher_step (0, 0) (words bs)) as [s1 s2].
  destruct (foldl fletcher_step (0, 0) (words (<[i:=v]> bs))) as [t1 t2].
  cbn [fst snd] in *.
  set (M := fletcher_mod) in *.
  assert (HM : M = 4294967295) by reflexivity.
  rewrite !lor_shiftl_add
    by (change (2 ^ 32) with 4294967296;
        match goal with |- context [?x mod M] =>
          pose proof (Z.mod_pos_bound x M ltac:(lia)) end; lia).
  intros Heq.
  remember (M - (s1 + s2) mod M) as c1 eqn:Hc1.
  remember (M - (t1 + t2) mod M) as c1' eqn:Hc1'.
  pose proof (Z.mod_pos_bound (s1 + s2) M ltac:(lia)).
  pose proof (Z.mod_pos_bound (t1 + t2) M ltac:(lia)).
  pose proof (Z.mod_pos_bound (s1 + c1) M ltac:(lia)).
  pose proof (Z.mod_pos_bound (t1 + c1') M ltac:(lia)).
  change (2 ^ 32) with 4294967296 in Heq.
  assert (Hc : c1' = c1 /\ (t1 + c1') mod M = (s1 + c1) mod M) by lia.
  destruct Hc as [-> Hc2].
  rewrite (Z.mod_small s1 M) in Hs by lia.
  rewrite (Z.mod_small t1 M) in Hs' by lia.
  rewrite Hs, Hs' in Hc2. clear - Hc2 Hd HM.
  rewrite HM in *.
  revert Hc2. rewrite Zplus_mod_idemp_l. rewrite (Zplus_mod_idemp_l (bsum 0 bs)).
  intros Hc2. Z.div_mod_to_equations. lia.
Qed.

End Fletcher.

Section ChecksumGate.
Import NodeDecoder.
Variable cksum : list Byte.byte -> Z.
Variable Node : Type.
Variable decode : list Byte.byte -> result Node.

Lemma parse_ok_cksum (raw_block : list Byte.byte) (node : Node) :
  parse cksum Node decode raw_block = Ok node ->
  stored_cksum raw_block = cksum (covered raw_block).
Proof.
  unfold parse. destruct (Z.eqb_spec (stored_cksum raw_block) (cksum (covered raw_block)));
    [auto|discriminate].
Qed.

Lemma stored_cksum_insert (raw_block : list Byte.byte) (i : nat) (v : Byte.byte) :
  cksum_size <= i -> stored_cksum (<[i:=v]> raw_block) = stored_cksum raw_block.
Proof.
  intros Hi. unfold stored_cksum. rewrite take_insert_ge by exact Hi. reflexivity.
Qed.

Lemma covered_insert (raw_block : list Byte.byte) (i : nat) (v : Byte.byte) :
  cksum_size <= i ->
  covered (<[i:=v]> raw_block) = <[i - cksum_size:=v]> (covered raw_block).
Proof.
  intros Hi. unfold covered. apply drop_insert_ge. exact Hi.
Qed.

(** C1.  Whatever the rest of a block says, a block whose stored checksum
    differs from the recomputed one is answered with [ChecksumMismatch], and
    nothing else of it is looked at.  So, with a checksum that tells apart
    blocks differing in one byte, changing any one byte after the checksum
    field of a block the decoder accepts, and leaving the stored checksum as
    it is, yields [ChecksumMismatch]. *)
Theorem parse_checksum_first :
  (forall raw_block : list Byte.byte,
     stored_cksum raw_block <> cksum (covered raw_block) ->
     parse cksum Node decode raw_block = Error ChecksumMismatch) /\
  ((forall (bs : list Byte.byte) (i : nat) (v : Byte.byte),
      i < length bs -> bs !! i <> Some v -> cksum (<[i:=v]> bs) <> cksum bs) ->
   forall (raw_block : list Byte.byte) (node : Node) (i : nat) (v : Byte.byte),
     parse cksum Node decode raw_block = Ok node ->
     cksum_size <= i < length raw_block ->
     raw_block !! i <> Some v ->
     parse cksum Node decode (<[i:=v]> raw_block) = Error ChecksumMismatch /\
     parse cksum Node decode (<[i:=v]> raw_block) <> Error NotFound).
Proof.
  split.
  - intros raw Hne. unfold parse.
    destruct (Z.eqb_spec (stored_cksum raw) (cksum (covered raw))); [contradiction|reflexivity].
  - intros Hdetects raw node i v Hok [Hlo Hhi] Hv.
    assert (Hmis : parse cksum Node decode (<[i:=v]> raw) = Error ChecksumMismatch).
    { unfold parse.
      rewrite stored_cksum_insert, covered_insert by exact Hlo.
      rewrite (parse_ok_cksum raw node Hok).
      destruct (Z.eqb_spec (cksum (covered raw))
                           (cksum (<[i - cksum_size:=v]> (covered raw)))) as [Heq|_];
        [|reflexivity].
      exfalso. apply (Hdetects (covered raw) (i - cksum_size) v); [| |congruence].
      + unfold covered. rewrite length_drop. lia.
      + unfold covered. rewrite lookup_drop.
        replace (cksum_size + (i - cksum_size)) with i by lia. exact Hv. }
    split; [exact Hmis|]. rewrite Hmis. discriminate.
Qed.

End ChecksumGate.

(** ** The properties at concrete inputs *)

Section Instances.
Import StringObject NodeDecoder.

Example storage_type_invalid :
  @get_obj_storage_type_string apfs_reference (hdr 0xc0000001) = Some "(invalid type)"%string.
Proof. reflexivity. Qed.

Example type_flags_none :
  @get_obj_type_flags_string apfs_reference malloc_fill realloc_take (hdr 0x40000002)
  = Returns (Some (chars "(none)" ++ [NUL])).
Proof. reflexivity. Qed.

Example type_flags_malloc_null :
  @get_obj_type_flags_string apfs_reference (fun _ => None) realloc_take (hdr 0x40000002)
  = Undefined.
Proof. reflexivity. Qed.

Example empty_leaf_accepted :
  exists nf, parse fletcher64 node_fields decode_fields empty_leaf = Ok nf
             /\ btn_flags nf = Btree.BTNODE_LEAF /\ btn_nkeys nf = 0%Z.
Proof. eexists. split; [vm_compute; reflexivity|]. split; reflexivity. Qed.

Example descriptor_out_of_bounds :
  parse fletcher64 node_fields decode_fields
        (seal (<[32:=Byte.x09]> empty_leaf_rest)) = Error MalformedNode.
Proof. vm_compute. reflexivity. Qed.

Lemma storage_type_string_total_witness :
  @get_obj_storage_type_string apfs_reference (hdr 0x40000002)
  = @get_obj_storage_type_string apfs_reference (hdr 0x4000000d).
Proof.
  apply (proj2 (@storage_type_string_total apfs_reference (hdr 0x40000002))).
  reflexivity.
Defined.

Lemma type_flags_string_text_witness :
  @get_obj_type_flags_string apfs_reference malloc_fill realloc_take (hdr 0x30000002)
  = Returns (Some (chars "No-header, Encrypted" ++ [NUL])).
Proof.
  apply (proj1 (@type_flags_string_text apfs_reference malloc_fill realloc_take
                  (hdr 0x30000002)
                  (fun n => ex_intro _ (replicate n "#"%char)
                              (conj eq_refl (length_replicate n "#"%char)))
                  (fun b n _ => eq_refl))).
Defined.

Lemma parse_checksum_first_witness :
  parse fletcher64 node_fields decode_fields (<[60:=Byte.x01]> empty_leaf)
  = Error ChecksumMismatch.
Proof.
  refine (proj1 (proj2 (parse_checksum_first fletcher64 node_fields decode_fields)
                   fletcher64_detects empty_leaf
                   {| btn_flags := 2; btn_level := 0; btn_nkeys := 0;
                      btn_table_space := {| off := 0; len := 0 |};
                      btn_free_space := {| off := 0; len := 0 |};
                      btn_key_free_list := {| off := 0; len := 0 |};
                      btn_val_free_list := {| off := 0; len := 0 |} |}
                   60 Byte.x01 _ _ _)).
  - vm_compute. reflexivity.
  - vm_compute. lia.
  - vm_compute. discriminate.
Defined.

End Instances.

(** ** Type and subtype names *)

Section TypeNames.
Import StringObject ObjectTypeNames.
Context `{ObjectTypes}.
Open Scope Z_scope.

Lemma switch_In (x : Z) (cases : list (Z * string)) (s : string) :
  switch x cases = Some s -> In (x, s) cases.
Proof.
  unfold switch. destruct (List.find _ cases) as [[c s']|] eqn:Hfind; [|discriminate].
  intros [= <-]. apply find_some in Hfind as [Hin Heq].
  apply Z.eqb_eq in Heq. simpl in Heq. subst c. exact Hin.
Qed.

Lemma switch_None (x : Z) (cases : list (Z * string)) :
  switch x cases = None <-> Forall (fun c => c.1 <> x) cases.
Proof.
  unfold switch. rewrite List.Forall_forall. split.
  - destruct (List.find _ cases) as [c|] eqn:Hfind; [discriminate|].
    intros _ c Hin Heq. pose proof (find_none _ _ Hfind c Hin) as Hc.
    apply Z.eqb_neq in Hc. contradiction.
  - intros Hall. destruct (List.find _ cases) as [c|] eqn:Hfind; [|reflexivity].
    apply find_some in Hfind as [Hin Heq]. apply Z.eqb_eq in Heq.
    exfalso. exact (Hall c Hin Heq).
Qed.

Lemma distinct_not_In (s : string) (l : list string) :
  existsb (String.eqb s) l = false -> ~ In s l.
Proof.
  intros Hex Hin. assert (existsb (String.eqb s) l = true); [|congruence].
  apply existsb_exists. exists s. split; [exact Hin|apply String.eqb_refl].
Qed.

Lemma distinct_inj (cases : list (Z * string)) (a b : Z) (s : string) :
  distinct (snd <$> cases) = true ->
  In (a, s) cases -> In (b, s) cases -> a = b.
Proof.
  induction cases as [|[c t] cases IH]; [contradiction|].
  cbn [fmap list_fmap snd distinct]. intros Hd.
  apply andb_prop in Hd as [Hhead Htail]. apply negb_true_iff in Hhead.
  apply distinct_not_In in Hhead.
  assert (Hsnd : forall x, In (x, t) cases -> In t (snd <$> cases)).
  { intros x Hx. change t with (snd (x, t)). apply (List.in_map snd), Hx. }
  intros [Ha|Ha] [Hb|Hb].
  - congruence.
  - injection Ha as -> ->. exfalso. eauto.
  - injection Hb as -> ->. exfalso. eauto.
  - exact (IH Htail Ha Hb).
Qed.

Lemma all_names_distinct :
  distinct (snd <$> (o_type_cases ++ o_subtype_cases)) = true.
Proof. vm_compute. reflexivity. Qed.

Lemma type_names_distinct : distinct (snd <$> o_type_cases) = true.
Proof. vm_compute. reflexivity. Qed.

Lemma o_type_to_string_In (v : Z) (s : string) :
  o_type_to_string v = Some s -> In (Z.land v OBJECT_TYPE_MASK, s) o_type_cases.
Proof. apply switch_In. Qed.

Lemma o_subtype_to_string_In (v : Z) (s : string) :
  o_subtype_to_string v = Some s ->
  In (Z.land v OBJECT_TYPE_MASK, s) (o_type_cases ++ o_subtype_cases).
Proof.
  unfold o_subtype_to_string. intros Hs. apply List.in_or_app.
  destruct (o_type_to_string v) as [t|] eqn:Ht.
  - left. injection Hs as ->. apply o_type_to_string_In, Ht.
  - right. apply switch_In, Hs.
Qed.

(** Bits of the argument outside [OBJECT_TYPE_MASK] (the storage type and the
    type flags of an [o_type]) never change the name either function gives. *)
Theorem type_name_ignores_flag_bits (v f : Z) :
  Z.land f OBJECT_TYPE_MASK = 0 ->
  o_type_to_string (Z.lor v f) = o_type_to_string v /\
  o_subtype_to_string (Z.lor v f) = o_subtype_to_string v.
Proof.
  intros Hf.
  assert (Hland : Z.land (Z.lor v f) OBJECT_TYPE_MASK = Z.land v OBJECT_TYPE_MASK).
  { rewrite Z.land_lor_distr_l, Hf. apply Z.lor_0_r. }
  unfold o_subtype_to_string, o_type_to_string. rewrite Hland. split; reflexivity.
Qed.

(** A type name stands for one type code: two values that
    [o_type_to_string] names alike agree under [OBJECT_TYPE_MASK]. *)
Theorem o_type_name_identifies_code (a b : Z) (s : string) :
  o_type_to_string a = Some s ->
  o_type_to_string b = Some s ->
  Z.land a OBJECT_TYPE_MASK = Z.land b OBJECT_TYPE_MASK.
Proof.
  intros Ha Hb. apply (distinct_inj o_type_cases _ _ s type_names_distinct);
    apply o_type_to_string_In; assumption.
Qed.

(** The same across both tables: no subtype name repeats a type name, so a
    name from [o_subtype_to_string] stands for one code as well. *)
Theorem o_subtype_name_identifies_code (a b : Z) (s : string) :
  o_subtype_to_string a = Some s ->
  o_subtype_to_string b = Some s ->
  Z.land a OBJECT_TYPE_MASK = Z.land b OBJECT_TYPE_MASK.
Proof.
  intros Ha Hb.
  apply (distinct_inj (o_type_cases ++ o_subtype_cases) _ _ s all_names_distinct);
    apply o_subtype_to_string_In; assumption.
Qed.

(** [o_subtype_to_string] gives every value [o_type_to_string] can name the
    same name, and is [NULL] exactly for the values whose masked code is the
    label of no case of either switch. *)
Theorem o_subtype_extends_o_type (v : Z) :
  (forall s, o_type_to_string v = Some s -> o_subtype_to_string v = Some s) /\
  (o_subtype_to_string v = None <->
   Forall (fun c => c.1 <> Z.land v OBJECT_TYPE_MASK) (o_type_cases ++ o_subtype_cases)).
Proof.
  split.
  - intros s Hs. unfold o_subtype_to_string. rewrite Hs. reflexivity.
  - rewrite List.Forall_app, <- !switch_None. unfold o_subtype_to_string.
    change (switch (Z.land v OBJECT_TYPE_MASK) o_type_cases) with (o_type_to_string v).
    destruct (o_type_to_string v) as [t|].
    + split; [discriminate|intros [? _]; discriminate].
    + tauto.
Qed.

(** A case whose label has a bit outside [OBJECT_TYPE_MASK] is never taken:
    when the keybag codes have one, no value is named a keybag, by either
    function. *)
Theorem keybag_names_unreachable (v : Z) :
  Z.land OBJECT_TYPE_CONTAINER_KEYBAG OBJECT_TYPE_MASK <> OBJECT_TYPE_CONTAINER_KEYBAG ->
  Z.land OBJECT_TYPE_VOLUME_KEYBAG OBJECT_TYPE_MASK <> OBJECT_TYPE_VOLUME_KEYBAG ->
  o_type_to_string v <> Some "Container keybag"%string /\
  o_type_to_string v <> Some "Volume keybag"%string /\
  o_subtype_to_string v <> Some "Container keybag"%string /\
  o_subtype_to_string v <> Some "Volume keybag"%string.
Proof.
  intros Hck Hvk.
  assert (Hidem : Z.land (Z.land v OBJECT_TYPE_MASK) OBJECT_TYPE_MASK
                  = Z.land v OBJECT_TYPE_MASK).
  { rewrite <- Z.land_assoc, Z.land_diag. reflexivity. }
  assert (Hc : ~ In (Z.land v OBJECT_TYPE_MASK, "Container keybag"%string)
                    (o_type_cases ++ o_subtype_cases)).
  { intros Hin.
    assert (Hhere : In (OBJECT_TYPE_CONTAINER_KEYBAG, "Container keybag"%string)
                       (o_type_cases ++ o_subtype_cases)).
    { apply List.in_or_app. left. unfold o_type_cases. do 20 right. left. reflexivity. }
    pose proof (distinct_inj _ _ _ _ all_names_distinct Hin Hhere) as Heq.
    rewrite <- Heq in Hck. contradiction. }
  assert (Hv : ~ In (Z.land v OBJECT_TYPE_MASK, "Volume keybag"%string)
                    (o_type_cases ++ o_subtype_cases)).
  { intros Hin.
    assert (Hhere : In (OBJECT_TYPE_VOLUME_KEYBAG, "Volume keybag"%string)
                       (o_type_cases ++ o_subtype_cases)).
    { apply List.in_or_app. left. unfold o_type_cases. do 21 right. left. reflexivity. }
    pose proof (distinct_inj _ _ _ _ all_names_distinct Hin Hhere) as Heq.
    rewrite <- Heq in Hvk. contradiction. }
  repeat split; intros Hs.
  - apply Hc, List.in_or_app. left. apply o_type_to_string_In, Hs.
  - apply Hv, List.in_or_app. left. apply o_type_to_string_In, Hs.
  - apply Hc, o_subtype_to_string_In, Hs.
  - apply Hv, o_subtype_to_string_In, Hs.
Qed.

End TypeNames.

(** ** Printing an object header *)

Section PrintfFacts.
Import StringObject ObjectHeaderPrint.

Lemma hex_digit_not_nul (d : Z) : hex_digit d <> NUL.
Proof.
  unfold hex_digit. generalize (Z.to_nat d). intros n.
  do 17 (destruct n as [|n]; [discriminate|]). destruct n; discriminate.
Qed.

Lemma hex_digits_length (n : nat) (z : Z) : length (hex_digits n z) = n.
Proof.
  revert z. induction n as [|n IH]; intros z; [reflexivity|].
  cbn [hex_digits]. rewrite length_app, IH. simpl. lia.
Qed.

Lemma hex_digits_no_nul (n : nat) (z : Z) : Forall (fun c => c <> NUL) (hex_digits n z).
Proof.
  revert z. induction n as [|n IH]; intros z; [constructor|].
  cbn [hex_digits]. apply Forall_app. split; [apply IH|].
  constructor; [apply hex_digit_not_nul|constructor].
Qed.

Lemma strip_zeros_length (ds : list ascii) : length (strip_zeros ds) <= length ds.
Proof.
  induction ds as [|c [|c' ds] IH]; [reflexivity..|].
  cbn [strip_zeros]. destruct (Ascii.eqb c "0"); [|reflexivity].
  simpl in *. lia.
Qed.

Lemma strip_zeros_no_nul (ds : list ascii) :
  Forall (fun c => c <> NUL) ds -> Forall (fun c => c <> NUL) (strip_zeros ds).
Proof.
  induction ds as [|c [|c' ds] IH]; [auto..|].
  intros Hall. cbn [strip_zeros]. destruct (Ascii.eqb c "0"); [|exact Hall].
  apply IH. inversion Hall; assumption.
Qed.

Lemma hex_field_no_nul (zero : bool) (width bits : nat) (z : Z) :
  Forall (fun c => c <> NUL) (hex_field zero width bits z).
Proof.
  unfold hex_field. apply Forall_app. split.
  - apply Forall_replicate. destruct zero; discriminate.
  - apply strip_zeros_no_nul, hex_digits_no_nul.
Qed.

(** [%08x] always takes eight characters. *)
Lemma hex_field_08x_length (z : Z) : length (hex_field true 8 32 z) = 8.
Proof.
  unfold hex_field. rewrite length_app, length_replicate.
  pose proof (strip_zeros_length (hex_digits (32 / 4) (z mod 2 ^ Z.of_nat 32))) as Hle.
  rewrite hex_digits_length in Hle. change (32 / 4) with 8 in *. lia.
Qed.

Lemma c_string_app (text rest : list ascii) :
  Forall (fun c => c <> NUL) text -> c_string (text ++ NUL :: rest) = Some text.
Proof.
  intros Hall. induction Hall as [|c text Hc Hall IH]; [reflexivity|].
  cbn [app c_string]. destruct (Ascii.eqb_spec c NUL) as [->|_]; [contradiction|].
  rewrite IH. reflexivity.
Qed.

Lemma memcpy_length (src buf b : list ascii) (dst : nat) :
  memcpy buf dst src = Some b -> length b = length buf.
Proof.
  revert buf dst. induction src as [|c src IH]; intros buf dst; cbn [memcpy].
  - intros [= <-]. reflexivity.
  - unfold store. destruct (dst <? length buf); [|discriminate]. cbn.
    intros Hb. apply IH in Hb. rewrite Hb. apply length_insert.
Qed.

Lemma format_type (z : Z) :
  format Plain (chars type_format) [ArgInt z]
  = Some (chars "Unknown type (0x" ++ hex_field true 8 32 z
          ++ chars ") --- perhaps this type was introduced in a later version of APFS than that published on 2019-02-27.").
Proof. reflexivity. Qed.

Lemma format_subtype (z : Z) :
  format Plain (chars subtype_format) [ArgInt z]
  = Some (chars "Unknown subtype (0x" ++ hex_field true 8 32 z
          ++ chars ") --- perhaps this subtype was introduced in a later version of APFS than that published on 2019-02-27.").
Proof. reflexivity. Qed.

End PrintfFacts.

Section PrintHeader.
Import StringObject ObjectTypeNames ObjectHeaderPrint.
Context `{ObjectConstants} `{ObjectTypes}.

Lemma sprintf_exact (fmt text fresh : list ascii) (args : list arg) :
  format Plain fmt args = Some text ->
  (length fresh = length text + 1 -> sprintf fresh fmt args = Some (text ++ [NUL])) /\
  (length fresh < length text + 1 -> sprintf fresh fmt args = None).
Proof.
  intros Hfmt. unfold sprintf. rewrite Hfmt. cbn [mbind option_bind]. split; intros Hlen.
  - pose proof (memcpy_written text [] fresh) as Hcpy.
    change (written [] fresh) with fresh in Hcpy. cbn [length app] in Hcpy.
    rewrite Hcpy by lia. cbn [mbind option_bind].
    rewrite store_written by lia. f_equal. unfold written.
    rewrite drop_ge by (rewrite length_app; simpl; lia). apply app_nil_r.
  - destruct (memcpy fresh 0 text) as [b|] eqn:Hcpy; [|reflexivity].
    cbn [mbind option_bind]. apply memcpy_length in Hcpy. unfold store.
    destruct (Nat.ltb_spec (length text) (length b)); [lia|reflexivity].
Qed.


Section Allocated.
Variable malloc : nat -> option (list ascii).
Variable realloc : list ascii -> nat -> option (list ascii).
Hypothesis malloc_ok : forall n, exists b, malloc n = Some b /\ length b = n.
Hypothesis realloc_ok : forall b n, n <= length b -> realloc b n = Some (take n b).

Lemma flags_string_run (obj : obj_phys_t) :
  get_obj_type_flags_string malloc realloc obj
  = Returns (Some (chars (type_flags_text obj) ++ [NUL])).
Proof.
  unfold get_obj_type_flags_string.
  change max_mem_required with (Some 152).
  destruct (malloc_ok 152) as (b & -> & Hlen).
  pose proof (final_text_room obj) as Hroom.
  change (seq 0 3) with [0; 1; 2]. cbn [foldl].
  change (Some (b, 0)) with (Some (written [] b, length (@nil ascii))).
  cbn [mbind option_bind].
  rewrite append_flag_written
    by (try lia; specialize (Hroom 1 ltac:(lia)); simpl in Hroom; lia).
  cbn [mbind option_bind].
  rewrite append_flag_written
    by (try lia; specialize (Hroom 2 ltac:(lia)); simpl in Hroom; lia).
  cbn [mbind option_bind].
  rewrite append_flag_written
    by (try lia; specialize (Hroom 3 ltac:(lia)); simpl in Hroom; lia).
  cbn [mbind option_bind].
  change (next_text obj (next_text obj (next_text obj [] 0) 1) 2) with (loop_text obj).
  destruct (Hroom 0 ltac:(lia)) as [_ Hfin].
  rewrite append_none_written by lia.
  cbn [mbind option_bind fst snd].
  rewrite store_written by lia. cbn [mbind option_bind].
  rewrite c_strlen_written by apply final_text_no_nul.
  cbn [mbind option_bind].
  rewrite realloc_ok
    by (rewrite written_length by (rewrite length_app; simpl; lia); lia).
  unfold written.
  replace (length (final_text obj) + 1) with (length (final_text obj ++ [NUL]))
    by (rewrite length_app; reflexivity).
  rewrite take_app_length. rewrite final_text_spec. reflexivity.
Qed.

Lemma unknown_string_ok (fmt : string) (z : Z) (abort text : list ascii) (w : world) :
  format Plain (chars fmt) [ArgInt z] = Some text ->
  strlen fmt + 5 = length text + 1 ->
  unknown_string malloc fmt z abort w = Finished (own (text ++ [NUL]) w).
Proof.
  intros Hfmt Hlen. unfold unknown_string.
  destruct (malloc_ok (strlen fmt + 5)) as (fresh & -> & Hfresh).
  destruct (sprintf_exact _ _ fresh _ Hfmt) as [Hfit _].
  rewrite Hfit by lia. reflexivity.
Qed.

Lemma printf_text (fmt text : list ascii) (args : list arg) (w : world) :
  format Plain fmt args = Some text -> printf fmt args w = Finished (put_out text w).
Proof. intros Hfmt. unfold printf. rewrite Hfmt. reflexivity. Qed.

Lemma type_text_no_nul (obj : obj_phys_t) :
  get_obj_type_string obj = None ->
  format Plain (chars type_format) [ArgInt (Z.land (o_type obj) OBJECT_TYPE_MASK)]
    = Some (type_text obj)
  /\ strlen type_format + 5 = length (type_text obj) + 1
  /\ Forall (fun c => c <> NUL) (type_text obj).
Proof.
  intros Hnone. unfold type_text. rewrite Hnone. split; [apply format_type|]. split.
  - rewrite !length_app, hex_field_08x_length. reflexivity.
  - apply Forall_app. split; [|apply Forall_app; split; [apply hex_field_no_nul|]];
      repeat (constructor; [discriminate|]); constructor.
Qed.

Lemma subtype_text_no_nul (obj : obj_phys_t) :
  get_obj_subtype_string obj = None ->
  format Plain (chars subtype_format) [ArgInt (o_subtype obj)] = Some (subtype_text obj)
  /\ strlen subtype_format + 5 = length (subtype_text obj) + 1
  /\ Forall (fun c => c <> NUL) (subtype_text obj).
Proof.
  intros Hnone. unfold subtype_text. rewrite Hnone. split; [apply format_subtype|]. split.
  - rewrite !length_app, hex_field_08x_length. reflexivity.
  - apply Forall_app. split; [|apply Forall_app; split; [apply hex_field_no_nul|]];
      repeat (constructor; [discriminate|]); constructor.
Qed.

Lemma format_cksum (z : Z) :
  format Plain (chars "Stored checksum:    0x%016llx" ++ [nl]) [ArgInt z]
  = Some (chars "Stored checksum:    0x" ++ hex_field true 16 64 z ++ [nl]).
Proof. reflexivity. Qed.

Lemma format_oid (z : Z) :
  format Plain (chars "OID:                0x%llx" ++ [nl]) [ArgInt z]
  = Some (chars "OID:                0x" ++ hex_field false 0 64 z ++ [nl]).
Proof. reflexivity. Qed.

Lemma format_xid (z : Z) :
  format Plain (chars "XID:                0x%llx" ++ [nl]) [ArgInt z]
  = Some (chars "XID:                0x" ++ hex_field false 0 64 z ++ [nl]).
Proof. reflexivity. Qed.

Lemma format_storage (t : list ascii) :
  format Plain (chars "Storage type:       %s" ++ [nl]) [ArgStr (Some t)]
  = Some (chars "Storage type:       " ++ t ++ [nl]).
Proof. reflexivity. Qed.

Lemma format_flags (t : list ascii) :
  format Plain (chars "Type flags:         %s" ++ [nl]) [ArgStr (Some t)]
  = Some (chars "Type flags:         " ++ t ++ [nl]).
Proof. reflexivity. Qed.

Lemma format_type_line (t : list ascii) :
  format Plain (chars "Type:               %s" ++ [nl]) [ArgStr (Some t)]
  = Some (chars "Type:               " ++ t ++ [nl]).
Proof. reflexivity. Qed.

Lemma format_subtype_line (t : list ascii) :
  format Plain (chars "Subtype:            %s" ++ [nl]) [ArgStr (Some t)]
  = Some (chars "Subtype:            " ++ t ++ [nl]).
Proof. reflexivity. Qed.

Lemma storage_text_some (obj : obj_phys_t) :
  chars <$> get_obj_storage_type_string obj = Some (storage_text obj).
Proof.
  unfold storage_text, get_obj_storage_type_string.
  repeat match goal with |- context [if ?c then _ else _] => destruct c end; reflexivity.
Qed.

Lemma deref_here (id n : nat) (text out err : list ascii) (l : list (nat * list ascii)) :
  Forall (fun c => c <> NUL) text ->
  deref (World ((id, text ++ [NUL]) :: l) n out err) (Block id) = Some text.
Proof.
  intros Htext. cbn [deref live List.find fst snd]. rewrite Nat.eqb_refl.
  cbn [mbind option_bind snd]. apply c_string_app, Htext.
Qed.

Lemma deref_skip (id id' n : nat) (b out err : list ascii) (l : list (nat * list ascii)) :
  id' <> id ->
  deref (World ((id', b) :: l) n out err) (Block id) = deref (World l n out err) (Block id).
Proof.
  intros Hne. cbn [deref live List.find fst snd].
  rewrite (proj2 (Nat.eqb_neq id' id) Hne). reflexivity.
Qed.

Lemma deref_literal (w : world) (s : string) : deref w (Literal s) = Some (chars s).
Proof. reflexivity. Qed.

Lemma deref_out (t : list ascii) (w : world) (p : ptr) :
  deref (put_out t w) p = deref w p.
Proof. destruct p; reflexivity. Qed.

Ltac run_printf fact :=
  rewrite (printf_text _ _ _ _ fact); cbn [mbind exec_bind].

Ltac run_free :=
  cbn [free put_out live next_id stdout stderr release fst snd];
  rewrite ?Nat.eqb_refl, ?(proj2 (Nat.eqb_neq _ _)) by lia;
  cbn [fmap option_fmap option_map mbind exec_bind live next_id stdout stderr].

(** With an allocator that does not fail, the function returns for every
    header: the seven lines are appended to the standard output, nothing goes
    to the standard error, and each of the one to three blocks allocated on
    the way has been freed. *)
Theorem print_obj_hdr_info_ok (obj : obj_phys_t) (w : world) :
  exists k,
    1 <= k <= 3 /\
    print_obj_hdr_info malloc realloc obj w
    = Finished (World (live w) (next_id w + k) (stdout w ++ hdr_text obj) (stderr w)).
Proof.
  destruct w as [l n out err]. unfold print_obj_hdr_info.
  rewrite flags_string_run. cbn [own live next_id stdout stderr].
  assert (Hflags : Forall (fun c => c <> NUL) (chars (type_flags_text obj)))
    by (rewrite <- final_text_spec; apply final_text_no_nul).
  destruct (get_obj_type_string obj) as [ts|] eqn:Hty;
    [|destruct (type_text_no_nul obj Hty) as (Htf & Htl & Htn);
      rewrite (unknown_string_ok _ _ _ _ _ Htf Htl)];
    (destruct (get_obj_subtype_string obj) as [ss|] eqn:Hsub;
     [|destruct (subtype_text_no_nul obj Hsub) as (Hsf & Hsl & Hsn);
       cbn [own mbind exec_bind live next_id stdout stderr];
       rewrite (unknown_string_ok _ _ _ _ _ Hsf Hsl)]);
    cbn [own mbind exec_bind live next_id stdout stderr];
    run_printf (format_cksum (o_cksum obj));
    run_printf (format_oid (o_oid obj));
    run_printf (format_xid (o_xid obj));
    rewrite storage_text_some;
    run_printf (format_storage (storage_text obj));
    rewrite !deref_out;
    rewrite ?(deref_skip n) by lia;
    rewrite (deref_here n) by exact Hflags;
    run_printf (format_flags (chars (type_flags_text obj)));
    rewrite !deref_out.
  - exists 1. split; [lia|]. rewrite deref_literal.
    run_printf (format_type_line (chars ts)). rewrite ?deref_out. rewrite deref_literal.
    run_printf (format_subtype_line (chars ss)). run_free.
    f_equal. f_equal; [lia|].
    unfold hdr_text, type_text, subtype_text. rewrite Hty, Hsub.
    rewrite <- !app_assoc. reflexivity.
  - exists 2. split; [lia|]. rewrite deref_literal.
    run_printf (format_type_line (chars ts)). rewrite ?deref_out.
    rewrite (deref_here (S n)) by exact Hsn.
    run_printf (format_subtype_line (subtype_text obj)). run_free. run_free.
    f_equal. f_equal; [lia|].
    unfold hdr_text, type_text. rewrite Hty.
    rewrite <- !app_assoc. reflexivity.
  - exists 2. split; [lia|].
    rewrite (deref_here (S n)) by exact Htn.
    run_printf (format_type_line (type_text obj)). rewrite ?deref_out. rewrite deref_literal.
    run_printf (format_subtype_line (chars ss)). run_free. run_free.
    f_equal. f_equal; [lia|].
    unfold hdr_text, subtype_text. rewrite Hsub.
    rewrite <- !app_assoc. reflexivity.
  - exists 3. split; [lia|].
    rewrite (deref_skip (S n)) by lia.
    rewrite (deref_here (S n)) by exact Htn.
    run_printf (format_type_line (type_text obj)). rewrite ?deref_out.
    rewrite (deref_here (S (S n))) by exact Hsn.
    run_printf (format_subtype_line (subtype_text obj)). run_free. run_free. run_free.
    f_equal. f_equal; [lia|].
    unfold hdr_text. rewrite <- !app_assoc. reflexivity.
Qed.

End Allocated.

(** When [malloc] has given the 152 bytes asked for, the function stays inside
    the block: it hands it to [realloc] with the text and its terminator at
    the front, asks for just their length, and returns what [realloc]
    returns, [NULL] included. *)
Theorem flags_string_reallocs
    (malloc : nat -> option (list ascii))
    (realloc : list ascii -> nat -> option (list ascii))
    (obj : obj_phys_t) (b : list ascii) :
  malloc 152 = Some b -> length b = 152 ->
  exists blk,
    get_obj_type_flags_string malloc realloc obj
      = Returns (realloc blk (strlen (type_flags_text obj) + 1)) /\
    length blk = 152 /\
    take (strlen (type_flags_text obj) + 1) blk = chars (type_flags_text obj) ++ [NUL] /\
    strlen (type_flags_text obj) + 1 <= 151.
Proof.
  intros Hmalloc Hlen.
  exists (written (final_text obj ++ [NUL]) b).
  pose proof (final_text_room obj) as Hroom.
  destruct (Hroom 0 ltac:(lia)) as [_ Hfin].
  rewrite <- chars_length, <- final_text_spec.
  split; [|split; [|split]].
  - unfold get_obj_type_flags_string.
    change max_mem_required with (Some 152). cbv beta iota. rewrite Hmalloc.
    change (seq 0 3) with [0; 1; 2]. cbn [foldl].
    change (Some (b, 0)) with (Some (written [] b, length (@nil ascii))).
    cbn [mbind option_bind].
    rewrite append_flag_written
      by (try lia; specialize (Hroom 1 ltac:(lia)); simpl in Hroom; lia).
    cbn [mbind option_bind].
    rewrite append_flag_written
      by (try lia; specialize (Hroom 2 ltac:(lia)); simpl in Hroom; lia).
    cbn [mbind option_bind].
    rewrite append_flag_written
      by (try lia; specialize (Hroom 3 ltac:(lia)); simpl in Hroom; lia).
    cbn [mbind option_bind].
    change (next_text obj (next_text obj (next_text obj [] 0) 1) 2) with (loop_text obj).
    rewrite append_none_written by lia.
    cbn [mbind option_bind fst snd].
    rewrite store_written by lia. cbn [mbind option_bind].
    rewrite c_strlen_written by apply final_text_no_nul.
    reflexivity.
  - rewrite written_length by (rewrite length_app; simpl; lia). exact Hlen.
  - unfold written.
    replace (length (final_text obj) + 1) with (length (final_text obj ++ [NUL]))
      by (rewrite length_app; reflexivity).
    apply take_app_length.
  - lia.
Qed.

(** When a type or subtype has no name and the block for its "Unknown ..."
    message cannot be allocated, the function exits with status -1: nothing
    has reached the standard output, and the ABORT line is on the standard
    error. *)
Theorem print_obj_hdr_info_exit
    (malloc : nat -> option (list ascii))
    (realloc : list ascii -> nat -> option (list ascii))
    (obj : obj_phys_t) (w : world) (r : option (list ascii)) :
  get_obj_type_flags_string malloc realloc obj = Returns r ->
  (get_obj_type_string obj = None ->
   malloc (strlen type_format + 5) = None ->
   exists w', print_obj_hdr_info malloc realloc obj w = Exited (-1) w'
              /\ stdout w' = stdout w /\ stderr w' = stderr w ++ type_abort) /\
  (forall ts, get_obj_type_string obj = Some ts ->
   get_obj_subtype_string obj = None ->
   malloc (strlen subtype_format + 5) = None ->
   exists w', print_obj_hdr_info malloc realloc obj w = Exited (-1) w'
              /\ stdout w' = stdout w /\ stderr w' = stderr w ++ subtype_abort).
Proof.
  intros Hflags. split.
  - intros Hty Hmalloc. unfold print_obj_hdr_info. rewrite Hflags, Hty.
    unfold unknown_string. rewrite Hmalloc.
    destruct r as [b|]; cbn [own mbind exec_bind]; eexists;
      (split; [reflexivity|split; reflexivity]).
  - intros ts Hty Hsub Hmalloc. unfold print_obj_hdr_info. rewrite Hflags, Hty, Hsub.
    unfold unknown_string. rewrite Hmalloc.
    destruct r as [b|]; cbn [own mbind exec_bind]; eexists;
      (split; [reflexivity|split; reflexivity]).
Qed.

End PrintHeader.

(** ** Flag words as sets of flags *)

Section FlagSets.
Import Btree.
Open Scope Z_scope.

Lemma has_flag_lor (x w f : Z) :
  has_flag (Z.lor x w) f = has_flag x f || has_flag w f.
Proof.
  unfold has_flag. rewrite Z.land_lor_distr_l.
  destruct (Z.eqb_spec (Z.land x f) 0) as [Hx|Hx],
           (Z.eqb_spec (Z.land w f) 0) as [Hw|Hw],
           (Z.eqb_spec (Z.lor (Z.land x f) (Z.land w f)) 0) as [Hl|Hl];
    try reflexivity; exfalso.
  - apply Hl. rewrite Hx, Hw. reflexivity.
  - apply Z.lor_eq_0_iff in Hl. tauto.
  - apply Z.lor_eq_0_iff in Hl. tauto.
  - apply Z.lor_eq_0_iff in Hl. tauto.
Qed.

Lemma flag_mask_decodes (group S : list Z) (f : Z) :
  (forall x y, In x group -> In y group -> has_flag x y = true <-> x = y) ->
  (forall x, In x S -> In x group) -> In f group ->
  has_flag (flag_mask S) f = true <-> In f S.
Proof.
  intros Hsingle HS Hf. induction S as [|x S IH].
  - cbn. split; [discriminate|contradiction].
  - cbn [flag_mask fold_right]. fold (flag_mask S).
    rewrite has_flag_lor, orb_true_iff, IH by (intros y Hy; apply HS; right; exact Hy).
    rewrite (Hsingle x f) by (first [exact Hf | apply HS; left; reflexivity]).
    reflexivity.
Qed.

Lemma btree_flags_single (x y : Z) :
  In x btree_flags -> In y btree_flags -> has_flag x y = true <-> x = y.
Proof.
  unfold btree_flags. cbn [In]. intros Hx Hy.
  repeat destruct Hx as [<-|Hx]; try contradiction;
    repeat destruct Hy as [<-|Hy]; try contradiction;
    vm_compute; split; congruence.
Qed.

Lemma btnode_flags_single (x y : Z) :
  In x btnode_flags -> In y btnode_flags -> has_flag x y = true <-> x = y.
Proof.
  unfold btnode_flags. cbn [In]. intros Hx Hy.
  repeat destruct Hx as [<-|Hx]; try contradiction;
    repeat destruct Hy as [<-|Hy]; try contradiction;
    vm_compute; split; congruence.
Qed.

(** A flag word built by or-ing macros of one group has a flag of that group
    exactly when the flag was among them: the tree flags do not overlap, and
    neither do the node flags. *)
Theorem flag_word_decodes (S : list Z) (f : Z) :
  ((forall x, In x S -> In x btree_flags) -> In f btree_flags ->
   has_flag (flag_mask S) f = true <-> In f S) /\
  ((forall x, In x S -> In x btnode_flags) -> In f btnode_flags ->
   has_flag (flag_mask S) f = true <-> In f S).
Proof.
  split; intros HS Hf.
  - exact (flag_mask_decodes btree_flags S f btree_flags_single HS Hf).
  - exact (flag_mask_decodes btnode_flags S f btnode_flags_single HS Hf).
Qed.

End FlagSets.

(** ** The further properties at concrete inputs *)

Section MoreInstances.
Import StringObject ObjectTypeNames ObjectHeaderPrint.

Example keybag_header_printed_unknown :
  exists w,
    @print_obj_hdr_info apfs_reference apfs_types malloc_fill realloc_take
      (obj_of 0 0x404 0x2a 0x6b657973 0) empty_world = Finished w
    /\ live w = []
    /\ @type_text apfs_types (obj_of 0 0x404 0x2a 0x6b657973 0)
       = chars "Unknown type (0x00007973) --- perhaps this type was introduced in a later version of APFS than that published on 2019-02-27.".
Proof. eexists. split; [vm_compute; reflexivity|]. split; reflexivity. Qed.

Lemma type_name_ignores_flag_bits_witness :
  @o_type_to_string apfs_types (Z.lor 0xb 0x40000000) = @o_type_to_string apfs_types 0xb.
Proof.
  apply (proj1 (@type_name_ignores_flag_bits apfs_types 0xb 0x40000000 eq_refl)).
Defined.

Lemma o_type_name_identifies_code_witness :
  Z.land 0x4000000b (@OBJECT_TYPE_MASK apfs_types)
  = Z.land 0x8000000b (@OBJECT_TYPE_MASK apfs_types).
Proof.
  apply (@o_type_name_identifies_code apfs_types 0x4000000b 0x8000000b "Object map");
    reflexivity.
Defined.

Lemma o_subtype_name_identifies_code_witness :
  Z.land 0xe (@OBJECT_TYPE_MASK apfs_types) = Z.land 0x1000e (@OBJECT_TYPE_MASK apfs_types).
Proof.
  apply (@o_subtype_name_identifies_code apfs_types 0xe 0x1000e "File-system records tree");
    reflexivity.
Defined.

Lemma o_subtype_extends_o_type_witness :
  @o_subtype_to_string apfs_types 0xb = Some "Object map"%string.
Proof.
  apply (proj1 (@o_subtype_extends_o_type apfs_types 0xb)). reflexivity.
Defined.

Lemma keybag_names_unreachable_witness :
  @o_type_to_string apfs_types 0x6b657973 <> Some "Container keybag"%string.
Proof.
  apply (@keybag_names_unreachable apfs_types 0x6b657973).
  - vm_compute. discriminate.
  - vm_compute. discriminate.
Defined.


Lemma print_obj_hdr_info_ok_witness :
  exists k,
    1 <= k <= 3 /\
    @print_obj_hdr_info apfs_reference apfs_types malloc_fill realloc_take
      (obj_of 0x1234 0x402 0x17 0x4000000b 0xb) empty_world
    = Finished (World [] (0 + k)
                  ([] ++ @hdr_text apfs_reference apfs_types
                           (obj_of 0x1234 0x402 0x17 0x4000000b 0xb)) []).
Proof.
  apply (@print_obj_hdr_info_ok apfs_reference apfs_types malloc_fill realloc_take
           (fun n => ex_intro _ (replicate n "#"%char)
                       (conj eq_refl (length_replicate n "#"%char)))
           (fun b n _ => eq_refl)
           (obj_of 0x1234 0x402 0x17 0x4000000b 0xb) empty_world).
Defined.

Lemma print_obj_hdr_info_exit_witness :
  exists w',
    @print_obj_hdr_info apfs_reference apfs_types (malloc_only 152) realloc_take
      (obj_of 0 1 1 0x40000004 0) empty_world = Exited (-1) w'
    /\ stdout w' = stdout empty_world
    /\ stderr w' = stderr empty_world ++ type_abort.
Proof.
  apply (proj1 (@print_obj_hdr_info_exit apfs_reference apfs_types (malloc_only 152)
                  realloc_take (obj_of 0 1 1 0x40000004 0) empty_world
                  (Some (chars "(none)" ++ [NUL])) eq_refl));
    reflexivity.
Defined.

Lemma flags_string_reallocs_witness :
  exists blk,
    @get_obj_type_flags_string apfs_reference malloc_fill (fun _ _ => None) (hdr 0x30000002)
      = Returns None /\
    length blk = 152 /\
    take (strlen (@type_flags_text apfs_reference (hdr 0x30000002)) + 1) blk
      = chars (@type_flags_text apfs_reference (hdr 0x30000002)) ++ [NUL] /\
    strlen (@type_flags_text apfs_reference (hdr 0x30000002)) + 1 <= 151.
Proof.
  apply (@flags_string_reallocs apfs_reference malloc_fill (fun _ _ => None)
           (hdr 0x30000002) (replicate 152 "#"%char) eq_refl eq_refl).
Defined.

Lemma flag_word_decodes_witness :
  Btree.has_flag (Btree.flag_mask [Btree.BTREE_UNIT64_KEYS; Btree.BTREE_PHYSICAL])
                 Btree.BTREE_PHYSICAL = true
  <-> In Btree.BTREE_PHYSICAL [Btree.BTREE_UNIT64_KEYS; Btree.BTREE_PHYSICAL].
Proof.
  apply (proj1 (flag_word_decodes [Btree.BTREE_UNIT64_KEYS; Btree.BTREE_PHYSICAL]
                  Btree.BTREE_PHYSICAL)).
  - intros x Hx. simpl in Hx. unfold Btree.btree_flags. simpl. tauto.
  - unfold Btree.btree_flags. simpl. tauto.
Defined.

End MoreInstances.
